(** * EmPOWER runtime: accounts, tenants and components

    A shallow embedding of [empower/core/core.py]: the registry kept by
    [EmpowerRuntime] (three insertion-ordered dictionaries), the persistent
    tables it mirrors, and the operations that keep the two in step.

    Every operation is a computation in a small monad that threads the
    world (tables, registry, identifier source), may raise a Python
    exception, and records the observable steps it takes (commits, writes
    to the registry, calls of plug-in hooks) in the order they happen. *)

From Stdlib Require Import String List Bool NArith Arith Lia.
Import ListNotations.
Local Open Scope string_scope.
Local Open Scope list_scope.

Set Implicit Arguments.

(** ** Keys with a boolean equality *)

Class EqKey (K : Type) := {
  keq : K -> K -> bool;
  keq_eq : forall a b, keq a b = true <-> a = b
}.

#[export] Instance EqKey_string : EqKey string :=
  {| keq := String.eqb; keq_eq := String.eqb_eq |}.

#[export] Instance EqKey_N : EqKey N :=
  {| keq := N.eqb; keq_eq := N.eqb_eq |}.

(** ** Python dictionaries

    A [dict] keeps its entries in insertion order and holds each key at
    most once; iteration ([values()]) follows that order.  Assigning to a
    key already present replaces the value in place, assigning to a new
    key appends.  [del d[k]] on a missing key is a [KeyError]: callers test
    [mem] first, as the source does, or raise. *)

Module Dict.
Section Dict.
Context {K V : Type} `{EqKey K}.

Definition t := list (K * V).

Definition empty : t := [].

Fixpoint get (k : K) (d : t) : option V :=
  match d with
  | [] => None
  | (k', v) :: d' => if keq k k' then Some v else get k d'
  end.

Definition mem (k : K) (d : t) : bool :=
  match get k d with Some _ => true | None => false end.

Fixpoint set (k : K) (v : V) (d : t) : t :=
  match d with
  | [] => [(k, v)]
  | (k', v') :: d' => if keq k k' then (k, v) :: d' else (k', v') :: set k v d'
  end.

Definition del (k : K) (d : t) : t :=
  filter (fun kv => negb (keq k (fst kv))) d.

Definition keys (d : t) : list K := map fst d.
Definition values (d : t) : list V := map snd d.

(** The invariant of a dictionary: no key twice. *)
Definition wf (d : t) : Prop := NoDup (keys d).
End Dict.
Arguments t : clear implicits.
End Dict.

(** ** Identifiers *)

(** A tenant identifier is a UUID, a 128-bit number. *)
Definition UUID := N.

(** ** Exceptions

    The source raises [ValueError] and [KeyError]; SQLAlchemy raises
    [IntegrityError] on a violated constraint and [UnmappedInstanceError]
    when [session.delete] is handed [None]; a missing attribute is an
    [AttributeError]; plug-in code may raise anything ([PluginError]). *)

Inductive Message :=
| Already_registered (name : string)      (* "%s already registered" *)
| Cannot_remove_root                     (* "Cannot removed root account" *)
| Cannot_be_removed (name : string)       (* "Module %s cannot be removed" *)
| Tenant_exists (tenant_id : option UUID) (* "Tenant %s exists" *)
| Tenant_name_exists (tenant_name : string). (* "Tenant name %s exists" *)

Inductive Key := KStr (s : string) | KUuid (u : UUID) | KInt (n : N).

Inductive Exn :=
| ValueError (m : Message)
| KeyError (k : Key)
| IntegrityError
| UnmappedInstanceError
| AttributeError (attr : string)
| PluginError (what : string).

(** The error kinds of the design, read off the raise sites: a collision of
    name, id, username or tenant name is [DuplicateEntity]; a lookup miss
    is [NotFound]; removing the root account is [Forbidden]; unregistering
    a component of the wrong class is [InvalidComponentType]. *)
Inductive ErrorKind := DuplicateEntity | NotFound | Forbidden | InvalidComponentType.

Definition error_kind (e : Exn) : option ErrorKind :=
  match e with
  | ValueError (Already_registered _) => Some DuplicateEntity
  | ValueError (Tenant_exists _) => Some DuplicateEntity
  | ValueError (Tenant_name_exists _) => Some DuplicateEntity
  | ValueError Cannot_remove_root => Some Forbidden
  | ValueError (Cannot_be_removed _) => Some InvalidComponentType
  | KeyError _ => Some NotFound
  | _ => None
  end.

(** ** Persistent tables *)

(** Modelled from the spec: the class [TblAccount] of
    [empower.persistence], which is not among the sources.  Its columns
    are the keyword arguments the source passes; [username] is the key. *)
Module TblAccount.
Record t := mk {
  username : string; password : string; role : string;
  name : string; surname : string; email : string }.
End TblAccount.

(** Modelled from the spec: the class [TblTenant] of
    [empower.persistence]; [tenant_id] is the key (a UUID, drawn by the
    column default when the source passes none) and [tenant_name] is
    unique. *)
Module TblTenant.
Record t := mk {
  tenant_id : UUID; tenant_name : string; owner : string; desc : string }.
End TblTenant.

(** Modelled from the spec: the class [TblPendingTenant] of
    [empower.persistence]; a pending request mirrors a tenant. *)
Module TblPendingTenant.
Record t := mk {
  tenant_id : UUID; owner : string; tenant_name : string; desc : string }.
End TblPendingTenant.

Record Store := mkStore {
  tbl_account : list TblAccount.t;
  tbl_tenant : list TblTenant.t;
  tbl_pending : list TblPendingTenant.t }.

Inductive Row :=
| RAccount (r : TblAccount.t)
| RTenant (r : TblTenant.t)
| RPending (r : TblPendingTenant.t).

(** Modelled from the spec: a session collects the work of one unit
    ([add], [delete]) until [commit] writes all of it or nothing.  Every
    operation of the runtime opens its own unit of work, so the session is
    a value local to the operation and the world holds committed rows
    only. *)
Inductive SessionOp := SAdd (r : Row) | SDelete (r : Row).
Definition Session := list SessionOp.

(** Modelled from the spec: [insert] commits the row or fails on a violated
    uniqueness constraint; [delete] removes the row with that primary
    key. *)
Definition flush_op (op : SessionOp) (db : Store) : option Store :=
  match op with
  | SAdd (RAccount a) =>
      if existsb (fun r => TblAccount.username r =? TblAccount.username a)
           (tbl_account db)
      then None
      else Some (mkStore (tbl_account db ++ [a]) (tbl_tenant db) (tbl_pending db))
  | SAdd (RTenant x) =>
      if existsb (fun r => (TblTenant.tenant_id r =? TblTenant.tenant_id x)%N
                           || (TblTenant.tenant_name r =? TblTenant.tenant_name x))
           (tbl_tenant db)
      then None
      else Some (mkStore (tbl_account db) (tbl_tenant db ++ [x]) (tbl_pending db))
  | SAdd (RPending p) =>
      if existsb (fun r => (TblPendingTenant.tenant_id r =? TblPendingTenant.tenant_id p)%N
                           || (TblPendingTenant.tenant_name r =? TblPendingTenant.tenant_name p))
           (tbl_pending db)
      then None
      else Some (mkStore (tbl_account db) (tbl_tenant db) (tbl_pending db ++ [p]))
  | SDelete (RAccount a) =>
      Some (mkStore
              (filter (fun r => negb (TblAccount.username r =? TblAccount.username a))
                 (tbl_account db))
              (tbl_tenant db) (tbl_pending db))
  | SDelete (RTenant x) =>
      Some (mkStore (tbl_account db)
              (filter (fun r => negb (TblTenant.tenant_id r =? TblTenant.tenant_id x)%N)
                 (tbl_tenant db))
              (tbl_pending db))
  | SDelete (RPending p) =>
      Some (mkStore (tbl_account db) (tbl_tenant db)
              (filter (fun r => negb (TblPendingTenant.tenant_id r
                                      =? TblPendingTenant.tenant_id p)%N)
                 (tbl_pending db)))
  end.

Fixpoint flush (ops : Session) (db : Store) : option Store :=
  match ops with
  | [] => Some db
  | op :: ops' =>
      match flush_op op db with
      | Some db' => flush ops' db'
      | None => None
      end
  end.

(** ** Objects held in memory *)

(** Modelled from the spec: [empower.core.account.Account], built from
    [(username, password, name, surname, email, role)]. *)
Module Account.
Record t := mk {
  username : string; password : string; name : string;
  surname : string; email : string; role : string }.
End Account.

(** Modelled from the spec: [empower.core.tenant.Tenant], built from
    [(tenant_id, tenant_name, owner, desc)]. *)
Module Tenant.
Record t := mk {
  tenant_id : UUID; tenant_name : string; owner : string; desc : string }.
End Tenant.

(** Modelled from the spec: a module of a worker ([empower.core.module],
    not among the sources), with the two attributes the runtime reads. *)
Module Module_.
Record t := mk { module_id : N; tenant_id : UUID }.
End Module_.

(** The attributes of a component object the runtime reads or writes:
    [path], and [modules] when the object has that attribute. *)
Record Obj := mkObj {
  path : option string;
  modules : option (Dict.t N Module_.t) }.

(** A method of a plug-in: it may change its own object and may raise. *)
Definition Method := Obj -> Obj * option Exn.

(** Modelled from the spec: a registered component.  The classes
    [ModuleWorker] and [EmpowerApp] are not among the sources; a component
    is its object, the answers to [issubclass(type(c), ModuleWorker)] and
    [issubclass(type(c), EmpowerApp)], and the methods it has ([None]: no
    such attribute).  A method acts on its own object only. *)
Record Component := mkComponent {
  obj : Obj;
  is_ModuleWorker : bool;
  is_EmpowerApp : bool;
  start : option Method;
  remove_module : option (N -> Method);
  remove_handlers : option Method }.

(** [EmpowerRuntime]: the dictionaries its operations use ([lvaps], [wtps],
    [cpps] and [feeds] are created empty and never touched here). *)
Record EmpowerRuntime := mkRuntime {
  components : Dict.t string Component;
  accounts : Dict.t string Account.t;
  tenants : Dict.t UUID Tenant.t }.

(** The world: the committed tables, the runtime object, and the source
    of fresh identifiers ([uuid.uuid4], the default of the [tenant_id]
    column): [uuid_source n] is the n-th identifier it hands out. *)
Record World := mkWorld {
  db : Store;
  self : EmpowerRuntime;
  uuid_source : nat -> UUID;
  uuid_drawn : nat }.

(** ** Observable steps *)

Inductive MemWrite :=
| WSetAccount (username : string)
| WDelAccount (username : string)
| WSetTenant (tenant_id : UUID)
| WDelTenant (tenant_id : UUID)
| WSetComponent (name : string)
| WSetPath (name : string)
| WDelComponent (name : string).

Inductive Hook :=
| HStart
| HRemoveModule (module_id : N)
| HRemoveHandlers.

Inductive Event :=
| EvCommit (ops : Session)
| EvRollback
| EvMem (m : MemWrite)
| EvHook (name : string) (h : Hook).

(** ** The monad *)

Inductive Outcome (A : Type) := Return (a : A) | Raise (e : Exn).
Arguments Raise {A} e.

Record Run (A : Type) := mkRun {
  events : list Event;
  world : World;
  outcome : Outcome A }.

Definition M (A : Type) := World -> Run A.

Definition ret {A} (a : A) : M A := fun w => mkRun [] w (Return a).

Definition raise {A} (e : Exn) : M A := fun w => mkRun [] w (Raise e).

(** The steps of [r], after the steps [ev] taken before it. *)
Definition prepend {A} (ev : list Event) (r : Run A) : Run A :=
  mkRun (ev ++ events r) (world r) (outcome r).

Definition bind {A B} (m : M A) (k : A -> M B) : M B := fun w =>
  let r := m w in
  match outcome r with
  | Return a => prepend (events r) (k a (world r))
  | Raise e => mkRun (events r) (world r) (Raise e)
  end.

Notation "x <- c1 ;; c2" := (bind c1 (fun x => c2))
  (at level 61, c1 at next level, right associativity).
Notation "c1 ;; c2" := (bind c1 (fun _ => c2))
  (at level 61, right associativity).

(** [try: m except handles: h]: the handler runs in the world the body
    left behind. *)
Definition try_except {A} (m : M A) (handles : Exn -> bool) (h : Exn -> M A) : M A :=
  fun w =>
    let r := m w in
    match outcome r with
    | Raise e => if handles e then prepend (events r) (h e (world r)) else r
    | Return _ => r
    end.

Definition emit (e : Event) : M unit := fun w => mkRun [e] w (Return tt).

Definition get_self : M EmpowerRuntime := fun w => mkRun [] w (Return (self w)).
Definition get_db : M Store := fun w => mkRun [] w (Return (db w)).

(** A write to one of the runtime's dictionaries (or to a component's
    [path]). *)
Definition mem_write (m : MemWrite) (f : EmpowerRuntime -> EmpowerRuntime) : M unit :=
  fun w => mkRun [EvMem m]
             (mkWorld (db w) (f (self w)) (uuid_source w) (uuid_drawn w))
             (Return tt).

Fixpoint for_each {X} (xs : list X) (body : X -> M unit) : M unit :=
  match xs with
  | [] => ret tt
  | x :: xs' => body x ;; for_each xs' body
  end.

(** ** The session *)

Definition new_Session : Session := [].

Definition session_add (s : Session) (r : Row) : Session := s ++ [SAdd r].

(** [session.delete(row)]: [None] is refused on the spot. *)
Definition session_delete (s : Session) (r : option Row) : M Session :=
  match r with
  | Some r => ret (s ++ [SDelete r])
  | None => raise UnmappedInstanceError
  end.

(** [session.commit()]: all the pending work or none of it. *)
Definition session_commit (s : Session) : M unit := fun w =>
  match flush s (db w) with
  | Some db' =>
      mkRun [EvCommit s] (mkWorld db' (self w) (uuid_source w) (uuid_drawn w)) (Return tt)
  | None => mkRun [] w (Raise IntegrityError)
  end.

Definition session_rollback : M unit := emit EvRollback.

Definition is_IntegrityError (e : Exn) : bool :=
  match e with IntegrityError => true | _ => false end.

(** The column default [uuid.uuid4]. *)
Definition uuid4 : M UUID := fun w =>
  mkRun [] (mkWorld (db w) (self w) (uuid_source w) (S (uuid_drawn w)))
    (Return (uuid_source w (uuid_drawn w))).

(** ** Reading and writing the runtime object *)

Definition with_components (f : Dict.t string Component -> Dict.t string Component)
  (rt : EmpowerRuntime) : EmpowerRuntime :=
  mkRuntime (f (components rt)) (accounts rt) (tenants rt).

Definition with_accounts (f : Dict.t string Account.t -> Dict.t string Account.t)
  (rt : EmpowerRuntime) : EmpowerRuntime :=
  mkRuntime (components rt) (f (accounts rt)) (tenants rt).

Definition with_tenants (f : Dict.t UUID Tenant.t -> Dict.t UUID Tenant.t)
  (rt : EmpowerRuntime) : EmpowerRuntime :=
  mkRuntime (components rt) (accounts rt) (f (tenants rt)).

(** What a plug-in method does to its own object is not a write to the
    runtime's dictionaries: it is recorded as the hook's call only. *)
Definition update_self (f : EmpowerRuntime -> EmpowerRuntime) : M unit :=
  fun w => mkRun [] (mkWorld (db w) (f (self w)) (uuid_source w) (uuid_drawn w))
             (Return tt).

(** [self.components[name]] *)
Definition the_component (name : string) : M Component :=
  rt <- get_self;;
  match Dict.get name (components rt) with
  | Some c => ret c
  | None => raise (KeyError (KStr name))
  end.

Definition set_obj (c : Component) (o : Obj) : Component :=
  mkComponent o (is_ModuleWorker c) (is_EmpowerApp c)
    (start c) (remove_module c) (remove_handlers c).

(** [self.components[name].<attr>(...)]: the component is looked up, the
    method is fetched (a missing one is an [AttributeError]) and called;
    what it did to the object stays, also when it raises. *)
Definition call_method (name attr : string) (h : Hook)
  (sel : Component -> option Method) : M unit :=
  c <- the_component name;;
  match sel c with
  | None => raise (AttributeError attr)
  | Some f =>
      emit (EvHook name h);;
      update_self (with_components (Dict.set name (set_obj c (fst (f (obj c))))));;
      match snd (f (obj c)) with
      | None => ret tt
      | Some e => raise e
      end
  end.

(** ** [generate_default_accounts] *)

Definition root_account : TblAccount.t :=
  TblAccount.mk "root" "root" "admin" "Administrator" "" "admin@empower.net".
Definition foo_account : TblAccount.t :=
  TblAccount.mk "foo" "foo" "user" "Foo" "" "foo@empower.net".
Definition bar_account : TblAccount.t :=
  TblAccount.mk "bar" "bar" "user" "Bar" "" "bar@empower.net".

Definition generate_default_accounts : M unit :=
  store <- get_db;;
  match tbl_account store with
  | [] =>
      let session := new_Session in
      let session := session_add session (RAccount root_account) in
      let session := session_add session (RAccount foo_account) in
      let session := session_add session (RAccount bar_account) in
      session_commit session
  | _ :: _ => ret tt
  end.

(** ** [EmpowerRuntime.__init__] and the two loaders *)

Definition Account_of (account : TblAccount.t) : Account.t :=
  Account.mk (TblAccount.username account) (TblAccount.password account)
    (TblAccount.name account) (TblAccount.surname account)
    (TblAccount.email account) (TblAccount.role account).

Definition load_accounts : M unit :=
  store <- get_db;;
  for_each (tbl_account store) (fun account =>
    mem_write (WSetAccount (TblAccount.username account))
      (with_accounts (Dict.set (TblAccount.username account) (Account_of account)))).

Definition load_tenants : M unit :=
  store <- get_db;;
  for_each (tbl_tenant store) (fun tenant =>
    rt <- get_self;;
    if Dict.mem (TblTenant.tenant_id tenant) (tenants rt)
    then raise (KeyError (KUuid (TblTenant.tenant_id tenant)))
    else
      mem_write (WSetTenant (TblTenant.tenant_id tenant))
        (with_tenants (Dict.set (TblTenant.tenant_id tenant)
           (Tenant.mk (TblTenant.tenant_id tenant) (TblTenant.tenant_name tenant)
              (TblTenant.owner tenant) (TblTenant.desc tenant))))).

Definition init : M unit :=
  update_self (fun _ => mkRuntime Dict.empty Dict.empty Dict.empty);;
  generate_default_accounts;;
  load_accounts;;
  load_tenants.

(** ** Accounts *)

Definition create_account (username password role name surname email : string)
  : M unit :=
  rt <- get_self;;
  if Dict.mem username (accounts rt)
  then raise (ValueError (Already_registered username))
  else
    let session := new_Session in
    let account := TblAccount.mk username password role name surname email in
    let session := session_add session (RAccount account) in
    session_commit session;;
    mem_write (WSetAccount (TblAccount.username account))
      (with_accounts (Dict.set (TblAccount.username account) (Account_of account))).

Definition get_account (username : string) : M (option Account.t) :=
  rt <- get_self;;
  ret (Dict.get username (accounts rt)).

Definition check_permission (username password : string) : M bool :=
  rt <- get_self;;
  match Dict.get username (accounts rt) with
  | None => ret false
  | Some a => ret (Account.password a =? password)
  end.

(** ** Tenants *)

Definition in_tenants (tenant_id : option UUID) (rt : EmpowerRuntime) : bool :=
  match tenant_id with
  | Some t => Dict.mem t (tenants rt)
  | None => false
  end.

Definition add_tenant (owner desc tenant_name : string) (tenant_id : option UUID)
  : M UUID :=
  rt <- get_self;;
  if in_tenants tenant_id rt
  then raise (ValueError (Tenant_exists tenant_id))
  else
    request <-
      try_except
        (let session := new_Session in
         request <-
           match tenant_id with
           | Some t => ret (TblTenant.mk t tenant_name owner desc)
           | None => t <- uuid4;; ret (TblTenant.mk t tenant_name owner desc)
           end;;
         let session := session_add session (RTenant request) in
         session_commit session;;
         ret request)
        is_IntegrityError
        (fun _ =>
           session_rollback;;
           raise (ValueError (Tenant_name_exists tenant_name)));;
    rt <- get_self;;
    match Dict.get owner (accounts rt) with
    | None => raise (KeyError (KStr owner))
    | Some account =>
        mem_write (WSetTenant (TblTenant.tenant_id request))
          (with_tenants (Dict.set (TblTenant.tenant_id request)
             (Tenant.mk (TblTenant.tenant_id request) (TblTenant.tenant_name request)
                (Account.username account) desc)));;
        ret (TblTenant.tenant_id request)
    end.

Definition load_pending_tenant (tenant_id : option UUID)
  : M (option TblPendingTenant.t) :=
  store <- get_db;;
  match tenant_id with
  | Some t =>
      ret (find (fun r => (TblPendingTenant.tenant_id r =? t)%N) (tbl_pending store))
  | None => ret None
  end.

Definition load_pending_tenants (username : option string)
  : M (list TblPendingTenant.t) :=
  store <- get_db;;
  match username with
  | Some u =>
      if (u =? "") then ret (tbl_pending store)
      else ret (filter (fun r => TblPendingTenant.owner r =? u) (tbl_pending store))
  | None => ret (tbl_pending store)
  end.

Definition request_tenant (owner desc tenant_name : string) (tenant_id : option UUID)
  : M UUID :=
  rt <- get_self;;
  if in_tenants tenant_id rt
  then raise (ValueError (Tenant_exists tenant_id))
  else
    pending <- load_pending_tenant tenant_id;;
    match pending with
    | Some _ => raise (ValueError (Tenant_exists tenant_id))
    | None =>
        request <-
          try_except
            (let session := new_Session in
             request <-
               match tenant_id with
               | Some t => ret (TblPendingTenant.mk t owner tenant_name desc)
               | None => t <- uuid4;; ret (TblPendingTenant.mk t owner tenant_name desc)
               end;;
             let session := session_add session (RPending request) in
             session_commit session;;
             ret request)
            is_IntegrityError
            (fun _ =>
               session_rollback;;
               raise (ValueError (Tenant_name_exists tenant_name)));;
        ret (TblPendingTenant.tenant_id request)
    end.

Definition reject_tenant (tenant_id : UUID) : M unit :=
  store <- get_db;;
  let pending :=
    find (fun r => (TblPendingTenant.tenant_id r =? tenant_id)%N) (tbl_pending store) in
  match pending with
  | None => raise (KeyError (KUuid tenant_id))
  | Some _ =>
      session <- session_delete new_Session (option_map RPending pending);;
      session_commit session
  end.

(** The modules of one component that belong to a tenant, as the inner
    loop of [remove_tenant] collects them: the [module_id] attribute of
    every value whose [tenant_id] is the tenant's. *)
Definition modules_of_tenant (tenant_id : UUID) (ms : Dict.t N Module_.t) : list N :=
  map Module_.module_id
    (filter (fun m => (Module_.tenant_id m =? tenant_id)%N) (Dict.values ms)).

(** One turn of [for component in self.components.values()]. *)
Definition sweep_component (tenant_id : UUID) (name : string) : M unit :=
  rt <- get_self;;
  match Dict.get name (components rt) with
  | None => ret tt
  | Some component =>
      match modules (obj component) with
      | None => ret tt
      | Some ms =>
          let to_be_removed := modules_of_tenant tenant_id ms in
          for_each to_be_removed (fun module_id =>
            call_method name "remove_module" (HRemoveModule module_id)
              (fun c => option_map (fun f => f module_id) (remove_module c)))
      end
  end.

Definition remove_tenant (tenant_id : UUID) : M unit :=
  rt <- get_self;;
  if negb (Dict.mem tenant_id (tenants rt))
  then raise (KeyError (KUuid tenant_id))
  else
    mem_write (WDelTenant tenant_id) (with_tenants (Dict.del tenant_id));;
    store <- get_db;;
    let tenant :=
      find (fun r => (TblTenant.tenant_id r =? tenant_id)%N) (tbl_tenant store) in
    session <- session_delete new_Session (option_map RTenant tenant);;
    session_commit session;;
    rt <- get_self;;
    for_each (Dict.keys (components rt)) (sweep_component tenant_id).

(** ** Removing an account *)

Definition tenants_owned_by (username : string) (ts : Dict.t UUID Tenant.t) : list UUID :=
  map Tenant.tenant_id
    (filter (fun x => Tenant.owner x =? username) (Dict.values ts)).

Definition remove_account (username : string) : M unit :=
  if username =? "root"
  then raise (ValueError Cannot_remove_root)
  else
    store <- get_db;;
    let account :=
      find (fun r => TblAccount.username r =? username) (tbl_account store) in
    match account with
    | None => raise (KeyError (KStr username))
    | Some _ =>
        session <- session_delete new_Session (option_map RAccount account);;
        session_commit session;;
        rt <- get_self;;
        (if Dict.mem username (accounts rt)
         then mem_write (WDelAccount username) (with_accounts (Dict.del username))
         else raise (KeyError (KStr username)));;
        rt <- get_self;;
        let to_be_deleted := tenants_owned_by username (tenants rt) in
        for_each to_be_deleted remove_tenant
    end.

(** ** Components *)

Definition set_path (c : Component) (name : string) : Component :=
  set_obj c (mkObj (Some name) (modules (obj c))).

Definition register {P : Type} (name : string)
  (init_method : P -> Outcome Component) (params : P) : M unit :=
  rt <- get_self;;
  if Dict.mem name (components rt)
  then raise (ValueError (Already_registered name))
  else
    match init_method params with
    | Raise e => raise e
    | Return instance =>
        mem_write (WSetComponent name) (with_components (Dict.set name instance));;
        c <- the_component name;;
        mem_write (WSetPath name) (with_components (Dict.set name (set_path c name)));;
        c <- the_component name;;
        match start c with
        | Some _ => call_method name "start" HStart start
        | None => ret tt
        end
    end.

Definition unregister (name : string) : M unit :=
  worker <- the_component name;;
  if negb (is_ModuleWorker worker) && negb (is_EmpowerApp worker)
  then raise (ValueError (Cannot_be_removed name))
  else
    (if is_ModuleWorker worker
     then
       c <- the_component name;;
       match modules (obj c) with
       | None => raise (AttributeError "modules")
       | Some ms =>
           let to_be_removed := map Module_.module_id (Dict.values ms) in
           for_each to_be_removed (fun remove =>
             call_method name "remove_module" (HRemoveModule remove)
               (fun c => option_map (fun f => f remove) (remove_module c)))
       end
     else ret tt);;
    call_method name "remove_handlers" HRemoveHandlers remove_handlers;;
    rt <- get_self;;
    if Dict.mem name (components rt)
    then mem_write (WDelComponent name) (with_components (Dict.del name))
    else raise (KeyError (KStr name)).

(** ** The plug-in contract *)

(** Modelled from the spec: [ModuleWorker.remove_module], which is not
    among the sources.  It deletes [modules[module_id]] and nothing else;
    a missing module is a [KeyError]. *)
Definition ModuleWorker_remove_module (module_id : N) : Method := fun o =>
  match modules o with
  | None => (o, Some (AttributeError "modules"))
  | Some ms =>
      if Dict.mem module_id ms
      then (mkObj (path o) (Some (Dict.del module_id ms)), None)
      else (o, Some (KeyError (KInt module_id)))
  end.

(** What the runtime relies on when it calls a component's own
    [remove_module]: on a module that is there, the call deletes that entry
    of [modules], touches nothing else and returns. *)
Definition removes_module (f : N -> Method) : Prop :=
  forall module_id o ms,
    modules o = Some ms ->
    Dict.mem module_id ms = true ->
    f module_id o = (mkObj (path o) (Some (Dict.del module_id ms)), None).

(** A modules collection is keyed by the [module_id] of its values. *)
Definition modules_wf (ms : Dict.t N Module_.t) : Prop :=
  Dict.wf ms /\ forall k m, In (k, m) ms -> Module_.module_id m = k.

Definition worker_ok (c : Component) : Prop :=
  forall ms, modules (obj c) = Some ms ->
    modules_wf ms /\ exists f, remove_module c = Some f /\ removes_module f.

Definition components_ok (cs : Dict.t string Component) : Prop :=
  Dict.wf cs /\ forall n c, In (n, c) cs -> worker_ok c.

(** The modules a sweep for [tenant_id] leaves in a collection, and what
    it does to a component and to the registry. *)
Definition other_tenants (tenant_id : UUID) (ms : Dict.t N Module_.t)
  : Dict.t N Module_.t :=
  filter (fun kv => negb (Module_.tenant_id (snd kv) =? tenant_id)%N) ms.

Definition swept (tenant_id : UUID) (c : Component) : Component :=
  match modules (obj c) with
  | Some ms => set_obj c (mkObj (path (obj c)) (Some (other_tenants tenant_id ms)))
  | None => c
  end.

Definition sweep_all (tenant_id : UUID) (cs : Dict.t string Component)
  : Dict.t string Component :=
  map (fun kv => (fst kv, swept tenant_id (snd kv))) cs.

Definition sweep_events (tenant_id : UUID) (cs : Dict.t string Component)
  : list Event :=
  flat_map (fun kv =>
    match modules (obj (snd kv)) with
    | Some ms =>
        map (fun module_id => EvHook (fst kv) (HRemoveModule module_id))
          (modules_of_tenant tenant_id ms)
    | None => []
    end) cs.

(** ** Store first, memory second

    A write to [accounts] or [tenants] mirrors a row of a table; the
    registry of components is kept in memory only. *)
Definition persisted_by (op : SessionOp) (m : MemWrite) : bool :=
  match m, op with
  | WSetAccount u, SAdd (RAccount a) => TblAccount.username a =? u
  | WDelAccount u, SDelete (RAccount a) => TblAccount.username a =? u
  | WSetTenant t, SAdd (RTenant x) => (TblTenant.tenant_id x =? t)%N
  | WDelTenant t, SDelete (RTenant x) => (TblTenant.tenant_id x =? t)%N
  | _, _ => false
  end.

Definition mirrored (m : MemWrite) : bool :=
  match m with
  | WSetAccount _ | WDelAccount _ | WSetTenant _ | WDelTenant _ => true
  | _ => false
  end.

Definition account_write (m : MemWrite) : bool :=
  match m with
  | WSetAccount _ | WDelAccount _ => true
  | _ => false
  end.

(** [store_first_from checked committed tr]: along [tr], every write that
    [checked] selects comes after a commit that holds its row
    ([committed]: what has been committed so far). *)
Fixpoint store_first_from (checked : MemWrite -> bool) (committed : Session)
  (tr : list Event) : bool :=
  match tr with
  | [] => true
  | EvCommit ops :: tr' => store_first_from checked (committed ++ ops) tr'
  | EvMem m :: tr' =>
      (negb (checked m) || existsb (fun op => persisted_by op m) committed)
      && store_first_from checked committed tr'
  | _ :: tr' => store_first_from checked committed tr'
  end.

Definition store_first (checked : MemWrite -> bool) (tr : list Event) : bool :=
  store_first_from checked [] tr.

Definition is_commit (e : Event) : bool :=
  match e with EvCommit _ => true | _ => false end.

Definition is_hook (e : Event) : bool :=
  match e with EvHook _ _ => true | _ => false end.

(** The mutating operations of the runtime. *)
Inductive Operation :=
| Create_account (username password role name surname email : string)
| Remove_account (username : string)
| Add_tenant (owner desc tenant_name : string) (tenant_id : option UUID)
| Remove_tenant (tenant_id : UUID)
| Register (name : string) (init_method : unit -> Outcome Component)
| Unregister (name : string).

Definition trace_of (op : Operation) (w : World) : list Event :=
  match op with
  | Create_account u p r n s e => events (create_account u p r n s e w)
  | Remove_account u => events (remove_account u w)
  | Add_tenant o d n t => events (add_tenant o d n t w)
  | Remove_tenant t => events (remove_tenant t w)
  | Register n i => events (register n i tt w)
  | Unregister n => events (unregister n w)
  end.

(** ** Worlds to run the operations in *)

Definition fresh_world : World :=
  mkWorld (mkStore [] [] [])
    (mkRuntime Dict.empty Dict.empty Dict.empty)
    (fun n => N.of_nat (1000 + n)) 0.

(** The controller right after its first start. *)
Definition booted : World := world (init fresh_world).

(** A worker that serves tenants 1 and 3 with one module each. *)
Definition a_worker : Component :=
  mkComponent
    (mkObj None
       (Some [(10%N, Module_.mk 10%N 1%N); (11%N, Module_.mk 11%N 3%N)]))
    true false None (Some ModuleWorker_remove_module) (Some (fun o => (o, None))).

(** An application, and an object that is neither worker nor application. *)
Definition an_app : Component :=
  mkComponent (mkObj None None) false true None None (Some (fun o => (o, None))).

Definition a_server : Component :=
  mkComponent (mkObj None None) false false None None None.

(** A component whose [start] fails. *)
Definition a_faulty : Component :=
  mkComponent (mkObj None None) false true
    (Some (fun o => (o, Some (PluginError "start")))) None
    (Some (fun o => (o, None))).

(** [foo] owns tenants 1 and 2, [bar] owns tenant 3, a worker and a plain
    server object are registered. *)
Definition populated : World :=
  world
    ((add_tenant "foo" "first" "net1" (Some 1%N);;
      add_tenant "foo" "second" "net2" (Some 2%N);;
      add_tenant "bar" "third" "net3" (Some 3%N);;
      register "worker" (fun _ : unit => Return a_worker) tt;;
      register "server" (fun _ : unit => Return a_server) tt) booted).

(** As [populated], with a request for tenant 7 pending. *)
Definition with_pending : World :=
  world (request_tenant "bar" "wanted" "net7" (Some 7%N) populated).

(** ** Vocabulary of the statements *)

(** The identifier a new row gets: the one asked for, or the next one the
    identifier source hands out. *)
Definition assigned_id (tenant_id : option UUID) (w : World) : UUID :=
  match tenant_id with
  | Some t => t
  | None => uuid_source w (uuid_drawn w)
  end.

(** A row of [TblTenant] that the table would refuse: its id or its name
    is taken. *)
Definition tenant_clash (x : TblTenant.t) (store : Store) : bool :=
  existsb (fun r => (TblTenant.tenant_id r =? TblTenant.tenant_id x)%N
                    || (TblTenant.tenant_name r =? TblTenant.tenant_name x))
    (tbl_tenant store).

(** A request for [tenant_id] is pending. *)
Definition has_pending (tenant_id : UUID) (w : World) : bool :=
  existsb (fun r => (TblPendingTenant.tenant_id r =? tenant_id)%N)
    (tbl_pending (db w)).

(** The world with another table of pending requests. *)
Definition set_pending (p : list TblPendingTenant.t) (w : World) : World :=
  mkWorld (mkStore (tbl_account (db w)) (tbl_tenant (db w)) p)
    (self w) (uuid_source w) (uuid_drawn w).

(** What a computation may be seen doing, whatever the world it runs in. *)
Definition emits_only {A} (ok : Event -> bool) (m : M A) : Prop :=
  forall w, forallb ok (events (m w)) = true.

Definition keeps_db {A} (m : M A) : Prop :=
  forall w, db (world (m w)) = db w.

Definition not_account_write (e : Event) : bool :=
  match e with
  | EvMem m => negb (account_write m)
  | _ => true
  end.

Definition not_commit (e : Event) : bool := negb (is_commit e).

(** Membership in a list of keys. *)
Definition inb {K} `{EqKey K} (k : K) (ks : list K) : bool := existsb (keq k) ks.

(** The identifiers [idf v] of the values of a dictionary that [p]
    selects: the snapshot both cascades take before they delete. *)
Definition selected {K V} (idf : V -> K) (p : V -> bool) (d : Dict.t K V) : list K :=
  map idf (filter p (Dict.values d)).

(** The world with another registry of components. *)
Definition set_components (cs : Dict.t string Component) (w : World) : World :=
  mkWorld (db w) (mkRuntime cs (accounts (self w)) (tenants (self w)))
    (uuid_source w) (uuid_drawn w).

(** The tenants dictionary is keyed by the [tenant_id] of its values. *)
Definition tenants_wf (ts : Dict.t UUID Tenant.t) : Prop :=
  Dict.wf ts /\ forall k t, In (k, t) ts -> Tenant.tenant_id t = k.

Definition has_tenant_row (t : UUID) (store : Store) : bool :=
  existsb (fun r => (TblTenant.tenant_id r =? t)%N) (tbl_tenant store).

Definition delete_tenant_row (t : UUID) (store : Store) : Store :=
  mkStore (tbl_account store)
    (filter (fun r => negb (TblTenant.tenant_id r =? t)%N) (tbl_tenant store))
    (tbl_pending store).

(** The world a completed [remove_tenant t] leaves behind. *)
Definition after_remove_tenant (t : UUID) (w : World) : World :=
  mkWorld (delete_tenant_row t (db w))
    (mkRuntime (sweep_all t (components (self w))) (accounts (self w))
       (Dict.del t (tenants (self w))))
    (uuid_source w) (uuid_drawn w).

(** ** More vocabulary: what stays in step, what stays untouched *)

(** The registry mirrors the tables: the accounts and the tenants held in
    memory are, key by key and in the same order, the rows of their
    tables. *)
Definition mirrors (w : World) : Prop :=
  Dict.keys (accounts (self w)) = map TblAccount.username (tbl_account (db w))
  /\ Dict.keys (tenants (self w)) = map TblTenant.tenant_id (tbl_tenant (db w)).

(** A computation that leaves tables, accounts and tenants alone, however
    it ends. *)
Definition components_only {A} (m : M A) : Prop :=
  forall w,
    db (world (m w)) = db w
    /\ accounts (self (world (m w))) = accounts (self w)
    /\ tenants (self (world (m w))) = tenants (self w).

(** A computation that keeps [P] whenever it returns. *)
Definition preserves {A} (P : World -> Prop) (m : M A) : Prop :=
  forall w, P w -> forall a, outcome (m w) = Return a -> P (world (m w)).

Definition run_operation (op : Operation) : M unit :=
  match op with
  | Create_account u p r n s e => create_account u p r n s e
  | Remove_account u => remove_account u
  | Add_tenant o d n t => _ <- add_tenant o d n t;; ret tt
  | Remove_tenant t => remove_tenant t
  | Register n i => register n i tt
  | Unregister n => unregister n
  end.

Definition has_account_row (username : string) (store : Store) : bool :=
  existsb (fun r => TblAccount.username r =? username) (tbl_account store).

(** A request that the table of pending requests would refuse. *)
Definition pending_clash (p : TblPendingTenant.t) (store : Store) : bool :=
  existsb (fun r => (TblPendingTenant.tenant_id r =? TblPendingTenant.tenant_id p)%N
                    || (TblPendingTenant.tenant_name r =? TblPendingTenant.tenant_name p))
    (tbl_pending store).

(** The component as [register] leaves it: stamped with its name, and
    started when it has a [start]. *)
Definition registered (c : Component) (name : string) : Component :=
  match start c with
  | Some f => set_obj c (fst (f (obj (set_path c name))))
  | None => set_path c name
  end.

(** The calls [unregister] makes to remove the modules of a worker. *)
Definition teardown_events (name : string) (c : Component) : list Event :=
  if is_ModuleWorker c
  then match modules (obj c) with
       | Some ms => map (fun id => EvHook name (HRemoveModule id))
                      (map Module_.module_id (Dict.values ms))
       | None => []
       end
  else [].

(** A store that another controller filled: the default accounts are in
    the table, this runtime has not loaded them. *)
Definition seeded : World := world (generate_default_accounts fresh_world).

(** The registry of [populated] over the tables of [booted]: the rows of
    the tenants are gone, their entries are still there. *)
Definition stale : World :=
  mkWorld (db booted) (self populated) (uuid_source populated) (uuid_drawn populated).

Definition is_mem_write (e : Event) : bool :=
  match e with EvMem _ => true | _ => false end.

(** A worker once [unregister] has removed its modules. *)
Definition torn_down (c : Component) : Component :=
  if is_ModuleWorker c
  then match modules (obj c) with
       | Some _ => set_obj c (mkObj (path (obj c)) (Some []))
       | None => c
       end
  else c.

(** What [unregister] needs of a component to go through: it is a worker
    or an application; a worker has its [modules], keyed by module id,
    and a [remove_module] that deletes the module it is given. *)
Definition removable (c : Component) : Prop :=
  is_ModuleWorker c || is_EmpowerApp c = true
  /\ (is_ModuleWorker c = true ->
      exists ms f, modules (obj c) = Some ms /\ modules_wf ms
                   /\ remove_module c = Some f /\ removes_module f).

(** An application whose [remove_handlers] fails. *)
Definition a_stubborn : Component :=
  mkComponent (mkObj None None) false true None None
    (Some (fun o => (o, Some (PluginError "remove_handlers")))).

(** The account table once [generate_default_accounts] has run. *)
Definition accounts_after_bootstrap (rows : list TblAccount.t) : list TblAccount.t :=
  match rows with
  | [] => [root_account; foo_account; bar_account]
  | _ :: _ => rows
  end.

Definition Tenant_of (tenant : TblTenant.t) : Tenant.t :=
  Tenant.mk (TblTenant.tenant_id tenant) (TblTenant.tenant_name tenant)
    (TblTenant.owner tenant) (TblTenant.desc tenant).

(** * The IBN server: traffic rules per tenant

    [empower/ibnp/ibnpserver.py] keeps the traffic rules in a dictionary of
    dictionaries, [trs[tenant_id][match]], and forwards every change to the
    connection when there is one.  The web application around it (handlers,
    HTTP server) is left out. *)

Module IBNP.

(** A Python value used as a key: a tenant id or a match.  Values of
    different types are never equal. *)
Inductive Value := VUuid (u : UUID) | VStr (s : string).

Definition value_eqb (a b : Value) : bool :=
  match a, b with
  | VUuid x, VUuid y => (x =? y)%N
  | VStr x, VStr y => (x =? y)%string
  | _, _ => false
  end.

Definition value_eqb_eq (a b : Value) : value_eqb a b = true <-> a = b.
Proof.
  destruct a as [x|x], b as [y|y]; cbn;
    try (split; intros H; discriminate H).
  - rewrite N.eqb_eq. split; [intros ->; reflexivity | intros [= ->]; reflexivity].
  - rewrite String.eqb_eq. split; [intros ->; reflexivity | intros [= ->]; reflexivity].
Defined.

#[export] Instance EqKey_Value : EqKey Value :=
  {| keq := value_eqb; keq_eq := value_eqb_eq |}.

Definition key_of (v : Value) : Key :=
  match v with
  | VUuid u => KUuid u
  | VStr s => KStr s
  end.

(** Modelled from the spec: [empower.core.trafficrule.TrafficRule], which
    is not among the sources; its fields are the keyword arguments
    [__load_trs] passes. *)
Record TrafficRule := mkTrafficRule {
  ssid : Value;
  tr_match : Value;
  label : string;
  dscp : string }.

(** What the server asks of its connection. *)
Inductive Call :=
| Call_add_tr (tr : TrafficRule)
| Call_remove_tr (tenant_id match_ : Value).

(** Modelled from the spec: the connection is an object of
    [IBNPMainHandler], which is not among the sources; each of its two
    methods returns or raises. *)
Record Connection := mkConnection {
  conn_add_tr : TrafficRule -> option Exn;
  conn_remove_tr : Value -> Value -> option Exn }.

(** [IBNPServer]: the attributes its methods use ([period], [last_seen]
    and [last_seen_ts] are set to [None] and never touched here). *)
Record Server := mkServer {
  connection : option Connection;
  port : N;
  seq_ : N;
  trs : Dict.t Value (Dict.t Value TrafficRule) }.

Record Res (A : Type) := mkRes {
  calls : list Call;
  server : Server;
  result : Outcome A }.

Definition set_trs (d : Dict.t Value (Dict.t Value TrafficRule)) (s : Server) : Server :=
  mkServer (connection s) (port s) (seq_ s) d.

Definition add_tr (tr : TrafficRule) (s : Server) : Res unit :=
  let tenant_id := ssid tr in
  let match_ := tr_match tr in
  let trs1 :=
    if negb (Dict.mem tenant_id (trs s))
    then Dict.set tenant_id Dict.empty (trs s)
    else trs s in
  match Dict.get tenant_id trs1 with
  | None => mkRes [] (set_trs trs1 s) (Raise (KeyError (key_of tenant_id)))
  | Some inner =>
      let s' := set_trs (Dict.set tenant_id (Dict.set match_ tr inner) trs1) s in
      match connection s with
      | Some c =>
          mkRes [Call_add_tr tr] s'
            match conn_add_tr c tr with
            | Some e => Raise e
            | None => Return tt
            end
      | None => mkRes [] s' (Return tt)
      end
  end.

Definition remove_tr (tenant_id match_ : Value) (s : Server) : Res unit :=
  let deleted : Outcome Server :=
    if Dict.mem match_ (trs s)
    then
      match Dict.get tenant_id (trs s) with
      | None => Raise (KeyError (key_of tenant_id))
      | Some inner =>
          if Dict.mem match_ inner
          then Return (set_trs (Dict.set tenant_id (Dict.del match_ inner) (trs s)) s)
          else Raise (KeyError (key_of match_))
      end
    else Return s in
  match deleted with
  | Raise e => mkRes [] s (Raise e)
  | Return s' =>
      match connection s with
      | Some c =>
          mkRes [Call_remove_tr tenant_id match_] s'
            match conn_remove_tr c tenant_id match_ with
            | Some e => Raise e
            | None => Return tt
            end
      | None => mkRes [] s' (Return tt)
      end
  end.

(** The property [seq]: every read counts. *)
Definition seq (s : Server) : N * Server :=
  (seq_ s + 1, mkServer (connection s) (port s) (seq_ s + 1) (trs s))%N.

(** Modelled from the spec: a row of [TblTrafficRule], which is not among
    the sources, with the columns [__load_trs] reads. *)
Record TblTrafficRule := mkTblTrafficRule {
  row_tenant_id : Value;
  row_match : Value;
  row_label : string;
  row_dscp : string }.

Definition rule_of (rule_db : TblTrafficRule) : TrafficRule :=
  mkTrafficRule (row_tenant_id rule_db) (row_match rule_db)
    (row_label rule_db) (row_dscp rule_db).

(** [__load_trs], given the rows the query returns: [add_tr] for each, as
    long as none raises. *)
Fixpoint load_trs (rows : list TblTrafficRule) (s : Server) : Res unit :=
  match rows with
  | [] => mkRes [] s (Return tt)
  | rule_db :: rows' =>
      let r := add_tr (rule_of rule_db) s in
      match result r with
      | Return _ =>
          let r' := load_trs rows' (server r) in
          mkRes (calls r ++ calls r') (server r') (result r')
      | Raise e => mkRes (calls r) (server r) (Raise e)
      end
  end.

(** [to_dict]: the representation holds the port and nothing else. *)
Definition to_dict (s : Server) : list (string * N) := [("port", port s)].

(** The rule stored for a tenant and a match, if any. *)
Definition lookup (tenant_id match_ : Value) (s : Server) : option TrafficRule :=
  match Dict.get tenant_id (trs s) with
  | Some inner => Dict.get match_ inner
  | None => None
  end.

(** The inner dictionary [add_tr] writes into: the tenant's, or a new one. *)
Definition rules_of (tenant_id : Value) (s : Server) : Dict.t Value TrafficRule :=
  match Dict.get tenant_id (trs s) with
  | Some inner => inner
  | None => Dict.empty
  end.

(** [n] reads of [seq], one after the other. *)
Fixpoint reads (n : nat) (s : Server) : list N :=
  match n with
  | O => []
  | S n' => fst (seq s) :: reads n' (snd (seq s))
  end.

(** The server as [__init__] sets it up before it loads the rules. *)
Definition new_server (p : N) : Server := mkServer None p 0%N Dict.empty.

(** A connection that accepts everything. *)
Definition a_connection : Connection :=
  mkConnection (fun _ => None) (fun _ _ => None).

Definition a_rule : TrafficRule :=
  mkTrafficRule (VUuid 1%N) (VStr "dl_vlan=3") "video" "0x2e".

End IBNP.

(** * Properties *)

(** ** Keys *)

Lemma keq_refl {K} `{EqKey K} (a : K) : keq a a = true.
Proof. now apply keq_eq. Qed.

Lemma keq_neq {K} `{EqKey K} (a b : K) : keq a b = false <-> a <> b.
Proof.
  split.
  - intros E Heq. apply keq_eq in Heq. congruence.
  - intros N. destruct (keq a b) eqn:E; [apply keq_eq in E; contradiction | reflexivity].
Qed.

Lemma keq_sym {K} `{EqKey K} (a b : K) : keq a b = keq b a.
Proof.
  destruct (keq a b) eqn:E.
  - apply keq_eq in E. subst. symmetry. apply keq_refl.
  - symmetry. apply keq_neq. apply keq_neq in E. congruence.
Qed.

(** ** The monad, step by step *)

Lemma bind_Return {A B} (m : M A) (k : A -> M B) w ev w1 a :
  m w = mkRun ev w1 (Return a) ->
  bind m k w = prepend ev (k a w1).
Proof.
  intros E. unfold bind. now rewrite E.
Qed.

Lemma prepend_nil {A} (r : Run A) : prepend [] r = r.
Proof. now destruct r. Qed.

(** ** Root protection *)

(** C5: whatever the store and the registry hold, [remove_account "root"]
    raises the [ValueError] of the root guard, a [Forbidden], before it
    looks at either: no step is taken and the world is as it was. *)
Theorem remove_account_root_forbidden (w : World) :
  remove_account "root" w = mkRun [] w (Raise (ValueError Cannot_remove_root))
  /\ error_kind (ValueError Cannot_remove_root) = Some Forbidden.
Proof. split; reflexivity. Qed.

(** ** Username uniqueness *)

(** C6: a username that is a key of [accounts] makes [create_account]
    raise "already registered", a [DuplicateEntity], before any session is
    opened: nothing is committed, the tables and the registry (the account
    under that name with them) are as they were. *)
Theorem create_account_duplicate (w : World)
  (username password role name surname email : string) :
  Dict.mem username (accounts (self w)) = true ->
  create_account username password role name surname email w
  = mkRun [] w (Raise (ValueError (Already_registered username)))
  /\ error_kind (ValueError (Already_registered username)) = Some DuplicateEntity.
Proof.
  intros Hin. split; [|reflexivity].
  unfold create_account, bind, get_self. cbn. now rewrite Hin.
Qed.

Lemma create_account_duplicate_witness :
  Dict.mem "foo" (accounts (self booted)) = true
  /\ create_account "foo" "secret" "user" "Foo" "Again" "foo@example.org" booted
     = mkRun [] booted (Raise (ValueError (Already_registered "foo"))).
Proof.
  split; [reflexivity|].
  apply (create_account_duplicate booted "foo" "secret" "user" "Foo" "Again"
           "foo@example.org").
  reflexivity.
Defined.

(** ** The component type gate *)

(** C7: a registered component whose class derives neither from
    [ModuleWorker] nor from [EmpowerApp] makes [unregister] raise "cannot
    be removed", an [InvalidComponentType], right after the lookup: no
    hook is called, and the registry (the entry, its modules and its
    handlers with it) is as it was. *)
Theorem unregister_type_gate (w : World) (name : string) (c : Component) :
  Dict.get name (components (self w)) = Some c ->
  is_ModuleWorker c = false ->
  is_EmpowerApp c = false ->
  unregister name w = mkRun [] w (Raise (ValueError (Cannot_be_removed name)))
  /\ error_kind (ValueError (Cannot_be_removed name)) = Some InvalidComponentType
  /\ Dict.get name (components (self (world (unregister name w)))) = Some c
  /\ filter is_hook (events (unregister name w)) = [].
Proof.
  intros Hget Hw Ha.
  assert (E : unregister name w
              = mkRun [] w (Raise (ValueError (Cannot_be_removed name)))).
  { unfold unregister, the_component, bind, get_self. cbn.
    rewrite Hget. cbn. now rewrite Hw, Ha. }
  rewrite E. cbn. auto.
Qed.

Lemma unregister_type_gate_witness :
  Dict.get "server" (components (self populated))
  = Some (set_path a_server "server")
  /\ unregister "server" populated
     = mkRun [] populated (Raise (ValueError (Cannot_be_removed "server"))).
Proof.
  split; [reflexivity|].
  apply (unregister_type_gate populated "server" (c := set_path a_server "server"));
    reflexivity.
Defined.

(** ** Dictionaries *)

Section DictFacts.
Context {K V : Type} `{EqKey K}.
Implicit Types (d : Dict.t K V) (k : K) (v : V).

Lemma get_set_same k v d : Dict.get k (Dict.set k v d) = Some v.
Proof.
  induction d as [|[k' v'] d IH]; cbn.
  - now rewrite keq_refl.
  - destruct (keq k k') eqn:E; cbn; rewrite ?keq_refl, ?E; auto.
Qed.

Lemma set_set k v v' d : Dict.set k v' (Dict.set k v d) = Dict.set k v' d.
Proof.
  induction d as [|[k' w] d IH]; cbn.
  - now rewrite keq_refl.
  - destruct (keq k k') eqn:E; cbn; rewrite ?keq_refl, ?E; congruence.
Qed.

Lemma not_mem_get k d : Dict.mem k d = false <-> Dict.get k d = None.
Proof.
  unfold Dict.mem. destruct (Dict.get k d); split; intros; congruence.
Qed.

Lemma mem_set_same k v d : Dict.mem k (Dict.set k v d) = true.
Proof. unfold Dict.mem. now rewrite get_set_same. Qed.
End DictFacts.

(** ** Bootstrap *)

(** C8: on a store without accounts [generate_default_accounts] commits
    once, and the commit holds exactly the three default rows: [root], an
    admin, then [foo] and [bar], users; a second run right after changes
    nothing, so there are still three.  On a store that holds an account
    it takes no step at all. *)
Theorem generate_default_accounts_idempotent (w : World) :
  (tbl_account (db w) = [] ->
   let r := generate_default_accounts w in
   events r = [EvCommit [SAdd (RAccount root_account);
                         SAdd (RAccount foo_account);
                         SAdd (RAccount bar_account)]]
   /\ outcome r = Return tt
   /\ world r = mkWorld (mkStore [root_account; foo_account; bar_account]
                           (tbl_tenant (db w)) (tbl_pending (db w)))
                  (self w) (uuid_source w) (uuid_drawn w)
   /\ length (tbl_account (db (world r))) = 3
   /\ map TblAccount.role (tbl_account (db (world r))) = ["admin"; "user"; "user"]
   /\ generate_default_accounts (world r) = mkRun [] (world r) (Return tt))
  /\ (tbl_account (db w) <> [] ->
      generate_default_accounts w = mkRun [] w (Return tt)).
Proof.
  split.
  - intros Hempty.
    assert (E : generate_default_accounts w
                = mkRun [EvCommit [SAdd (RAccount root_account);
                                   SAdd (RAccount foo_account);
                                   SAdd (RAccount bar_account)]]
                    (mkWorld (mkStore [root_account; foo_account; bar_account]
                                (tbl_tenant (db w)) (tbl_pending (db w)))
                       (self w) (uuid_source w) (uuid_drawn w))
                    (Return tt)).
    { unfold generate_default_accounts, bind, get_db; cbn.
      rewrite Hempty. unfold session_commit; cbn. now rewrite Hempty. }
    cbn zeta. rewrite E. cbn. repeat split; reflexivity.
  - intros Hsome. unfold generate_default_accounts, bind, get_db; cbn.
    destruct (tbl_account (db w)); [contradiction | reflexivity].
Qed.

Lemma generate_default_accounts_idempotent_witness :
  tbl_account (db fresh_world) = []
  /\ tbl_account (db (world (generate_default_accounts fresh_world)))
     = [root_account; foo_account; bar_account]
  /\ tbl_account (db booted) <> []
  /\ generate_default_accounts booted = mkRun [] booted (Return tt).
Proof.
  destruct (generate_default_accounts_idempotent fresh_world) as [Hfirst _].
  destruct (generate_default_accounts_idempotent booted) as [_ Hagain].
  split; [reflexivity|]. split.
  - destruct (Hfirst eq_refl) as (_ & _ & Hw & _). rewrite Hw. reflexivity.
  - split; [discriminate|]. apply Hagain. discriminate.
Defined.

(** ** A tenant for an owner nobody registered *)

(** C9: when the owner is no key of [accounts], the tenant id is not live
    and the table takes the row, [add_tenant] commits the row and only then
    raises the [KeyError] of the owner lookup: the call fails, the row
    stays in [TblTenant], the registry is untouched, and the row's owner is
    no registered account. *)
Theorem add_tenant_unknown_owner (w : World) (owner desc tenant_name : string)
  (tenant_id : option UUID) :
  Dict.mem owner (accounts (self w)) = false ->
  in_tenants tenant_id (self w) = false ->
  tenant_clash (TblTenant.mk (assigned_id tenant_id w) tenant_name owner desc) (db w)
  = false ->
  let row := TblTenant.mk (assigned_id tenant_id w) tenant_name owner desc in
  let r := add_tenant owner desc tenant_name tenant_id w in
  events r = [EvCommit [SAdd (RTenant row)]]
  /\ outcome r = Raise (KeyError (KStr owner))
  /\ error_kind (KeyError (KStr owner)) = Some NotFound
  /\ db (world r) = mkStore (tbl_account (db w)) (tbl_tenant (db w) ++ [row])
                      (tbl_pending (db w))
  /\ self (world r) = self w
  /\ Dict.mem (TblTenant.owner row) (accounts (self (world r))) = false.
Proof.
  intros Howner Hlive Hclash. cbn zeta.
  apply not_mem_get in Howner.
  unfold tenant_clash in Hclash.
  unfold add_tenant, bind, get_self, try_except, session_commit; cbn.
  rewrite Hlive.
  destruct tenant_id as [t|]; cbn in *; rewrite Hclash; cbn;
    rewrite Howner; cbn; repeat split; try reflexivity;
    now apply not_mem_get.
Qed.

Lemma add_tenant_unknown_owner_witness :
  outcome (add_tenant "nobody" "orphan" "net9" None populated)
  = Raise (KeyError (KStr "nobody"))
  /\ db (world (add_tenant "nobody" "orphan" "net9" None populated))
     = mkStore (tbl_account (db populated))
         (tbl_tenant (db populated)
          ++ [TblTenant.mk 1000%N "net9" "nobody" "orphan"])
         (tbl_pending (db populated)).
Proof.
  destruct (add_tenant_unknown_owner populated "nobody" "orphan" "net9" None)
    as (_ & Hout & _ & Hdb & _); [reflexivity | reflexivity | reflexivity |].
  split; [exact Hout | exact Hdb].
Defined.

(** ** A component whose start hook fails *)

(** C10: when the name is free, the constructor returns an instance that
    has a [start] method and that method raises, [register] lets the
    exception through, but the instance has been stored under the name (and
    stamped with it) before [start] ran and stays there: the next [register]
    of that name raises "already registered", a [DuplicateEntity]. *)
Theorem register_start_raises {P : Type} (w : World) (name : string)
  (init_method : P -> Outcome Component) (params : P)
  (c : Component) (f : Method) (e : Exn) :
  Dict.mem name (components (self w)) = false ->
  init_method params = Return c ->
  start c = Some f ->
  snd (f (obj (set_path c name))) = Some e ->
  let r := register name init_method params w in
  outcome r = Raise e
  /\ events r = [EvMem (WSetComponent name); EvMem (WSetPath name);
                 EvHook name HStart]
  /\ Dict.get name (components (self (world r)))
     = Some (set_obj c (fst (f (obj (set_path c name)))))
  /\ db (world r) = db w
  /\ (forall (Q : Type) (init_method' : Q -> Outcome Component) (params' : Q),
        register name init_method' params' (world r)
        = mkRun [] (world r) (Raise (ValueError (Already_registered name))))
  /\ error_kind (ValueError (Already_registered name)) = Some DuplicateEntity.
Proof.
  intros Hfree Hinit Hstart Hraise. cbn zeta.
  assert (E : register name init_method params w
              = mkRun [EvMem (WSetComponent name); EvMem (WSetPath name);
                       EvHook name HStart]
                  (mkWorld (db w)
                     (with_components
                        (fun _ => Dict.set name
                                    (set_obj c (fst (f (obj (set_path c name)))))
                                    (components (self w)))
                        (self w))
                     (uuid_source w) (uuid_drawn w))
                  (Raise e)).
  { unfold set_path in Hraise. cbn in Hraise.
    unfold register, bind, get_self. cbn. rewrite Hfree, Hinit.
    unfold call_method, the_component, bind, get_self.
    repeat (cbn; rewrite ?get_set_same, ?set_set, ?Hstart, ?Hraise).
    unfold prepend, raise, with_components, set_path, set_obj. cbn.
    now rewrite !set_set. }
  rewrite E. cbn. repeat split; try reflexivity.
  - apply get_set_same.
  - intros Q init' params'. unfold register, bind, get_self. cbn.
    now rewrite mem_set_same.
Qed.

Lemma register_start_raises_witness :
  outcome (register "faulty" (fun _ : unit => Return a_faulty) tt populated)
  = Raise (PluginError "start")
  /\ outcome (register "faulty" (fun _ : unit => Return an_app) tt
                (world (register "faulty" (fun _ : unit => Return a_faulty) tt
                          populated)))
     = Raise (ValueError (Already_registered "faulty")).
Proof.
  destruct (register_start_raises populated "faulty"
              (fun _ : unit => Return a_faulty) tt
              (c := a_faulty) (f := fun o => (o, Some (PluginError "start")))
              (e := PluginError "start"))
    as (Hout & _ & _ & _ & Hagain & _); try reflexivity.
  split; [exact Hout|].
  rewrite (Hagain unit (fun _ : unit => Return an_app) tt). reflexivity.
Defined.

(** ** Pending requests and [add_tenant] *)

(** C1, as stated, fails: with a request for tenant 7 pending,
    [add_tenant] for id 7 commits the row, creates the tenant and returns
    the id. *)
Lemma add_tenant_pending_id_counterexample :
  has_pending 7%N with_pending = true
  /\ Dict.mem 7%N (tenants (self with_pending)) = false
  /\ outcome (add_tenant "bar" "approved" "net7" (Some 7%N) with_pending)
     = Return 7%N
  /\ Dict.get 7%N
       (tenants (self (world (add_tenant "bar" "approved" "net7" (Some 7%N)
                                with_pending))))
     = Some (Tenant.mk 7%N "net7" "bar" "approved").
Proof. repeat split; reflexivity. Qed.

(** C1, amended: the duplicate-id check of [add_tenant] looks at the live
    tenants only.  A live id makes it raise "Tenant exists", a
    [DuplicateEntity], with nothing committed and no tenant created; the
    table of pending requests has no influence on what [add_tenant] does;
    the check against pending requests is the one [request_tenant] makes,
    which raises the same error for an id that is pending. *)
Theorem add_tenant_checks_live_only (w : World) (owner desc tenant_name : string)
  (t : UUID) :
  (Dict.mem t (tenants (self w)) = true ->
   add_tenant owner desc tenant_name (Some t) w
   = mkRun [] w (Raise (ValueError (Tenant_exists (Some t)))))
  /\ error_kind (ValueError (Tenant_exists (Some t))) = Some DuplicateEntity
  /\ (forall (p : list TblPendingTenant.t) (tenant_id : option UUID),
        let r := add_tenant owner desc tenant_name tenant_id w in
        let r' := add_tenant owner desc tenant_name tenant_id (set_pending p w) in
        events r' = events r
        /\ outcome r' = outcome r
        /\ world r' = set_pending p (world r))
  /\ (has_pending t w = true ->
      request_tenant owner desc tenant_name (Some t) w
      = mkRun [] w (Raise (ValueError (Tenant_exists (Some t))))).
Proof.
  split; [|split; [reflexivity|split]].
  - intros Hlive. unfold add_tenant, bind, get_self. cbn. now rewrite Hlive.
  - intros p tenant_id. cbn zeta.
    unfold add_tenant, bind, get_self, try_except, session_commit, set_pending.
    cbn.
    destruct (in_tenants tenant_id (self w)); [now cbn|].
    destruct tenant_id as [t'|]; cbn;
      match goal with
      | |- context [existsb ?g ?l] => destruct (existsb g l)
      end; cbn;
      destruct (Dict.get owner (accounts (self w))); cbn; auto.
  - intros Hpend. unfold has_pending in Hpend.
    unfold request_tenant, load_pending_tenant, bind, get_self, get_db. cbn.
    destruct (Dict.mem t (tenants (self w))); [reflexivity|]. cbn.
    destruct (find _ (tbl_pending (db w))) eqn:Hfind; [reflexivity|].
    apply existsb_exists in Hpend. destruct Hpend as (x & Hin & Hx).
    now rewrite (find_none _ _ Hfind x Hin) in Hx.
Qed.

Lemma add_tenant_checks_live_only_witness :
  Dict.mem 1%N (tenants (self with_pending)) = true
  /\ add_tenant "bar" "again" "net1b" (Some 1%N) with_pending
     = mkRun [] with_pending (Raise (ValueError (Tenant_exists (Some 1%N))))
  /\ has_pending 7%N with_pending = true
  /\ request_tenant "bar" "again" "net7b" (Some 7%N) with_pending
     = mkRun [] with_pending (Raise (ValueError (Tenant_exists (Some 7%N)))).
Proof.
  split; [reflexivity|]. split.
  - destruct (add_tenant_checks_live_only with_pending "bar" "again" "net1b" 1%N)
      as (Hlive & _). now apply Hlive.
  - split; [reflexivity|].
    destruct (add_tenant_checks_live_only with_pending "bar" "again" "net7b" 7%N)
      as (_ & _ & _ & Hpend). now apply Hpend.
Defined.

(** ** What the steps of a computation can be *)

Lemma events_bind {A B} (m : M A) (k : A -> M B) w :
  events (bind m k w)
  = events (m w)
    ++ match outcome (m w) with
       | Return a => events (k a (world (m w)))
       | Raise _ => []
       end.
Proof.
  unfold bind. destruct (outcome (m w)); cbn; [reflexivity | now rewrite app_nil_r].
Qed.

Section EmitsOnly.
Variable ok : Event -> bool.

Lemma emits_only_bind {A B} (m : M A) (k : A -> M B) :
  emits_only ok m -> (forall a, emits_only ok (k a)) -> emits_only ok (bind m k).
Proof.
  intros Hm Hk w. rewrite events_bind, forallb_app, Hm. cbn.
  destruct (outcome (m w)); [apply Hk | reflexivity].
Qed.

Lemma emits_only_ret {A} (a : A) : emits_only ok (ret a).
Proof. now intros w. Qed.

Lemma emits_only_raise {A} (e : Exn) : emits_only ok (@raise A e).
Proof. now intros w. Qed.

Lemma emits_only_get_self : emits_only ok get_self.
Proof. now intros w. Qed.

Lemma emits_only_get_db : emits_only ok get_db.
Proof. now intros w. Qed.

Lemma emits_only_update_self f : emits_only ok (update_self f).
Proof. now intros w. Qed.

Lemma emits_only_uuid4 : emits_only ok uuid4.
Proof. now intros w. Qed.

Lemma emits_only_emit e : ok e = true -> emits_only ok (emit e).
Proof. intros H w. cbn. now rewrite H. Qed.

Lemma emits_only_mem_write m f :
  ok (EvMem m) = true -> emits_only ok (mem_write m f).
Proof. intros H w. cbn. now rewrite H. Qed.

Lemma emits_only_commit s :
  ok (EvCommit s) = true -> emits_only ok (session_commit s).
Proof.
  intros H w. unfold session_commit. destruct (flush s (db w)); cbn;
    [now rewrite H | reflexivity].
Qed.

Lemma emits_only_session_delete s r : emits_only ok (session_delete s r).
Proof. destruct r; [apply emits_only_ret | apply emits_only_raise]. Qed.

Lemma emits_only_for_each {X} (xs : list X) (body : X -> M unit) :
  (forall x, emits_only ok (body x)) -> emits_only ok (for_each xs body).
Proof.
  intros Hbody. induction xs as [|x xs IH]; cbn.
  - apply emits_only_ret.
  - apply emits_only_bind; auto.
Qed.

Lemma emits_only_the_component name : emits_only ok (the_component name).
Proof.
  unfold the_component. apply emits_only_bind; [apply emits_only_get_self|].
  intros rt. destruct (Dict.get name (components rt));
    [apply emits_only_ret | apply emits_only_raise].
Qed.

Lemma emits_only_call_method name attr h sel :
  ok (EvHook name h) = true -> emits_only ok (call_method name attr h sel).
Proof.
  intros H. unfold call_method.
  apply emits_only_bind; [apply emits_only_the_component|]. intros c.
  destruct (sel c) as [f|]; [|apply emits_only_raise].
  apply emits_only_bind; [now apply emits_only_emit|]. intros _.
  apply emits_only_bind; [apply emits_only_update_self|]. intros _.
  destruct (snd (f (obj c))); [apply emits_only_raise | apply emits_only_ret].
Qed.
End EmitsOnly.

Section KeepsDb.
Lemma keeps_db_bind {A B} (m : M A) (k : A -> M B) :
  keeps_db m -> (forall a, keeps_db (k a)) -> keeps_db (bind m k).
Proof.
  intros Hm Hk w. unfold bind. destruct (outcome (m w)) eqn:E; cbn.
  - now rewrite Hk, Hm.
  - apply Hm.
Qed.

Lemma keeps_db_ret {A} (a : A) : keeps_db (ret a).
Proof. now intros w. Qed.

Lemma keeps_db_raise {A} (e : Exn) : keeps_db (@raise A e).
Proof. now intros w. Qed.

Lemma keeps_db_get_self : keeps_db get_self.
Proof. now intros w. Qed.

Lemma keeps_db_update_self f : keeps_db (update_self f).
Proof. now intros w. Qed.

Lemma keeps_db_emit e : keeps_db (emit e).
Proof. now intros w. Qed.

Lemma keeps_db_mem_write m f : keeps_db (mem_write m f).
Proof. now intros w. Qed.

Lemma keeps_db_for_each {X} (xs : list X) (body : X -> M unit) :
  (forall x, keeps_db (body x)) -> keeps_db (for_each xs body).
Proof.
  intros Hbody. induction xs as [|x xs IH]; cbn.
  - apply keeps_db_ret.
  - apply keeps_db_bind; auto.
Qed.

Lemma keeps_db_the_component name : keeps_db (the_component name).
Proof.
  unfold the_component. apply keeps_db_bind; [apply keeps_db_get_self|].
  intros rt. destruct (Dict.get name (components rt));
    [apply keeps_db_ret | apply keeps_db_raise].
Qed.

Lemma keeps_db_call_method name attr h sel :
  keeps_db (call_method name attr h sel).
Proof.
  unfold call_method.
  apply keeps_db_bind; [apply keeps_db_the_component|]. intros c.
  destruct (sel c) as [f|]; [|apply keeps_db_raise].
  apply keeps_db_bind; [apply keeps_db_emit|]. intros _.
  apply keeps_db_bind; [apply keeps_db_update_self|]. intros _.
  destruct (snd (f (obj c))); [apply keeps_db_raise | apply keeps_db_ret].
Qed.
End KeepsDb.

(** One tactic for both: follow the structure of the computation. *)
Ltac walk :=
  repeat first
    [ apply emits_only_bind; [|intros ?]
    | apply keeps_db_bind; [|intros ?]
    | apply emits_only_ret | apply keeps_db_ret
    | apply emits_only_raise | apply keeps_db_raise
    | apply emits_only_get_self | apply keeps_db_get_self
    | apply emits_only_get_db
    | apply emits_only_update_self | apply keeps_db_update_self
    | apply emits_only_uuid4
    | apply emits_only_session_delete
    | apply emits_only_the_component | apply keeps_db_the_component
    | apply keeps_db_call_method
    | apply keeps_db_mem_write
    | apply keeps_db_emit
    | apply emits_only_call_method; reflexivity
    | apply emits_only_mem_write; reflexivity
    | apply emits_only_commit; reflexivity
    | apply emits_only_emit; reflexivity
    | apply emits_only_for_each; intros ?
    | apply keeps_db_for_each; intros ?
    | match goal with
      | |- emits_only _ (if ?b then _ else _) => destruct b
      | |- keeps_db (if ?b then _ else _) => destruct b
      | |- emits_only _ (match ?x with _ => _ end) => destruct x
      | |- keeps_db (match ?x with _ => _ end) => destruct x
      end ].

Lemma remove_tenant_no_account_write t :
  emits_only not_account_write (remove_tenant t).
Proof. unfold remove_tenant, sweep_component. walk. Qed.

Lemma register_no_commit {P} name (init_method : P -> Outcome Component) params :
  emits_only not_commit (register name init_method params)
  /\ keeps_db (register name init_method params).
Proof. split; unfold register; walk. Qed.

Lemma unregister_no_commit name :
  emits_only not_commit (unregister name) /\ keeps_db (unregister name).
Proof. split; unfold unregister; walk. Qed.

Lemma store_first_quiet committed tr :
  forallb not_account_write tr = true ->
  store_first_from account_write committed tr = true.
Proof.
  revert committed. induction tr as [|e tr IH]; intros committed H; cbn in *.
  - reflexivity.
  - apply andb_prop in H. destruct H as [He Htr].
    destruct e; cbn in *; auto. rewrite He. cbn. auto.
Qed.

(** ** Store first, memory second? *)

(** C2, as stated, fails: [remove_tenant] on a live tenant deletes the
    entry of [tenants] first and commits the deletion of the row after
    it. *)
Lemma store_first_counterexample :
  trace_of (Remove_tenant 2%N) populated
  = [EvMem (WDelTenant 2%N);
     EvCommit [SDelete (RTenant (TblTenant.mk 2%N "net2" "foo" "second"))]]
  /\ store_first mirrored (trace_of (Remove_tenant 2%N) populated) = false.
Proof. split; reflexivity. Qed.

(** C2, amended: [create_account] and [add_tenant] write to the registry
    only after the commit of the row they mirror, and [remove_account]
    deletes the account from the registry only after the commit that
    deletes its row; [register] and [unregister] commit nothing and leave
    the tables alone; [remove_tenant] on a live tenant starts with the
    deletion from the registry, before its row is deleted. *)
Theorem store_first_where_it_holds (w : World) :
  (forall u p r n s e,
      store_first mirrored (trace_of (Create_account u p r n s e) w) = true)
  /\ (forall o d n t,
      store_first mirrored (trace_of (Add_tenant o d n t) w) = true)
  /\ (forall u, store_first account_write (trace_of (Remove_account u) w) = true)
  /\ (forall n i,
      forallb not_commit (trace_of (Register n i) w) = true
      /\ db (world (register n i tt w)) = db w)
  /\ (forall n,
      forallb not_commit (trace_of (Unregister n) w) = true
      /\ db (world (unregister n w)) = db w)
  /\ (forall t, Dict.mem t (tenants (self w)) = true ->
      (exists rest, trace_of (Remove_tenant t) w = EvMem (WDelTenant t) :: rest)
      /\ store_first mirrored (trace_of (Remove_tenant t) w) = false).
Proof.
  repeat split.
  - intros u p r n s e. cbn.
    unfold create_account, bind, get_self, session_commit. cbn.
    destruct (Dict.mem u (accounts (self w))); [reflexivity|]. cbn.
    destruct (existsb _ (tbl_account (db w))); cbn; [reflexivity|].
    unfold store_first. cbn. now rewrite String.eqb_refl.
  - intros o d n t. cbn.
    unfold add_tenant, bind, get_self, try_except, session_commit. cbn.
    destruct (in_tenants t (self w)); [reflexivity|].
    destruct t as [t|]; cbn;
      match goal with
      | |- context [existsb ?g ?l] => destruct (existsb g l)
      end; cbn; try reflexivity;
      destruct (Dict.get o (accounts (self w))); cbn; try reflexivity;
      unfold store_first; cbn; now rewrite N.eqb_refl.
  - intros u. cbn. unfold remove_account.
    destruct (u =? "root"); [reflexivity|].
    rewrite events_bind. cbn.
    destruct (find _ (tbl_account (db w))) as [row|] eqn:Hfind;
      [|reflexivity].
    apply find_some in Hfind; destruct Hfind as [_ Hrow].
    cbn. rewrite events_bind.
    destruct (Dict.mem u (accounts (self w))); cbn; [|reflexivity].
    rewrite Hrow. cbn.
    apply store_first_quiet.
    apply (@emits_only_for_each not_account_write _ _ remove_tenant
             remove_tenant_no_account_write).
  - apply (proj1 (register_no_commit n i tt)).
  - apply (proj2 (register_no_commit n i tt)).
  - apply (proj1 (unregister_no_commit n)).
  - apply (proj2 (unregister_no_commit n)).
  - cbn. unfold remove_tenant, bind at 1. cbn. rewrite H. cbn.
    eexists. reflexivity.
  - cbn. unfold remove_tenant, bind at 1. cbn. rewrite H. cbn. reflexivity.
Qed.

Lemma store_first_where_it_holds_witness :
  Dict.mem 3%N (tenants (self populated)) = true
  /\ store_first mirrored (trace_of (Remove_tenant 3%N) populated) = false
  /\ store_first mirrored
       (trace_of (Add_tenant "bar" "fourth" "net4" (Some 4%N)) populated) = true.
Proof.
  destruct (store_first_where_it_holds populated)
    as (_ & Hadd & _ & _ & _ & Hremove).
  split; [reflexivity|]. split.
  - apply Hremove. reflexivity.
  - apply Hadd.
Defined.

(** ** More on dictionaries: deleting a snapshot of keys *)

Section DictDelete.
Context {K V : Type} `{EqKey K}.
Implicit Types (d : Dict.t K V) (k : K) (v : V).

Lemma inb_In k (ks : list K) : inb k ks = true <-> In k ks.
Proof.
  unfold inb. rewrite existsb_exists. split.
  - intros (x & Hin & Hx). apply keq_eq in Hx. now subst.
  - intros Hin. exists k. split; [assumption | apply keq_refl].
Qed.

Lemma In_get k v d : Dict.wf d -> In (k, v) d -> Dict.get k d = Some v.
Proof.
  unfold Dict.wf, Dict.keys.
  induction d as [|[k' v'] d IH]; cbn; [contradiction|].
  intros Hnd [Heq | Hin].
  - injection Heq as -> ->. now rewrite keq_refl.
  - inversion Hnd as [|? ? Hnotin Hnd']; subst.
    destruct (keq k k') eqn:E; [|auto].
    apply keq_eq in E. subst. exfalso. apply Hnotin.
    apply (in_map fst) in Hin. exact Hin.
Qed.

Lemma mem_In_keys k d : Dict.mem k d = true <-> In k (Dict.keys d).
Proof.
  unfold Dict.mem, Dict.keys. induction d as [|[k' v'] d IH]; cbn.
  - split; [discriminate | contradiction].
  - destruct (keq k k') eqn:E.
    + apply keq_eq in E. subst. split; auto.
    + rewrite IH. apply keq_neq in E. split; [auto | intros [?|?]; congruence].
Qed.

Lemma set_get_same k v d : Dict.get k d = Some v -> Dict.set k v d = d.
Proof.
  induction d as [|[k' v'] d IH]; cbn; [discriminate|].
  destruct (keq k k') eqn:E.
  - intros [= ->]. apply keq_eq in E. now subst.
  - intros Hget. now rewrite IH.
Qed.

Lemma get_app_fresh k d1 d2 :
  ~ In k (Dict.keys d1) -> Dict.get k (d1 ++ d2) = Dict.get k d2.
Proof.
  induction d1 as [|[k' v'] d1 IH]; cbn; [reflexivity|].
  intros Hnotin. destruct (keq k k') eqn:E.
  - apply keq_eq in E. subst. exfalso. auto.
  - apply IH. auto.
Qed.

Lemma set_app_fresh k v d1 d2 :
  ~ In k (Dict.keys d1) -> Dict.set k v (d1 ++ d2) = d1 ++ Dict.set k v d2.
Proof.
  induction d1 as [|[k' v'] d1 IH]; cbn; [reflexivity|].
  intros Hnotin. destruct (keq k k') eqn:E.
  - apply keq_eq in E. subst. exfalso. auto.
  - rewrite IH; auto.
Qed.

Lemma mem_del_other k k' d :
  k <> k' -> Dict.mem k d = true -> Dict.mem k (Dict.del k' d) = true.
Proof.
  intros Hneq. rewrite !mem_In_keys. unfold Dict.keys, Dict.del.
  rewrite !in_map_iff. intros ([k0 v0] & Hk & Hin). cbn in Hk. subst k0.
  exists (k, v0). split; [reflexivity|].
  apply filter_In. split; [assumption|]. cbn.
  apply negb_true_iff, keq_neq. congruence.
Qed.

Lemma wf_filter (p : K * V -> bool) d : Dict.wf d -> Dict.wf (filter p d).
Proof.
  unfold Dict.wf, Dict.keys. induction d as [|[k v] d IH]; cbn; [auto|].
  intros Hnd. inversion Hnd as [|? ? Hnotin Hnd']; subst.
  destruct (p (k, v)); cbn; [|auto].
  constructor; [|auto].
  intros Hin. apply Hnotin. apply in_map_iff in Hin.
  destruct Hin as (x & Hx & Hin). apply filter_In in Hin.
  apply in_map_iff. exists x. tauto.
Qed.

(** Deleting the keys of a list, one after the other. *)
Lemma fold_del (ks : list K) d :
  fold_left (fun d' k => Dict.del k d') ks d
  = filter (fun kv => negb (inb (fst kv) ks)) d.
Proof.
  revert d. induction ks as [|k ks IH]; intros d; cbn [fold_left].
  - symmetry. apply forallb_filter_id. now apply forallb_forall.
  - rewrite IH. unfold Dict.del. clear IH.
    induction d as [|[k' v'] d IHd]; [reflexivity|].
    cbn [filter fst inb existsb]. rewrite (keq_sym k' k).
    destruct (keq k k'); cbn [negb orb filter fst]; [exact IHd|].
    fold (inb k' ks). destruct (inb k' ks); cbn [negb]; [exact IHd|].
    now f_equal.
Qed.

Lemma selected_In (idf : V -> K) (p : V -> bool) d k :
  (forall k' v, In (k', v) d -> idf v = k') ->
  (In k (selected idf p d) <-> exists v, In (k, v) d /\ p v = true).
Proof.
  intros Hkey. unfold selected, Dict.values. rewrite in_map_iff. split.
  - intros (v & Hid & Hin). apply filter_In in Hin. destruct Hin as [Hin Hp].
    apply in_map_iff in Hin. destruct Hin as ([k' v'] & Hv & Hin).
    cbn in Hv. subst v'. exists v. split; [|assumption].
    now rewrite <- Hid, (Hkey _ _ Hin).
  - intros (v & Hin & Hp). exists v. split; [eauto|].
    apply filter_In. split; [|assumption].
    apply in_map_iff. now exists (k, v).
Qed.

Lemma selected_mem (idf : V -> K) (p : V -> bool) d k :
  (forall k' v, In (k', v) d -> idf v = k') ->
  In k (selected idf p d) -> Dict.mem k d = true.
Proof.
  intros Hkey Hin. apply (@selected_In idf p d k Hkey) in Hin.
  destruct Hin as (v & Hin & _).
  apply mem_In_keys. unfold Dict.keys. apply in_map_iff. now exists (k, v).
Qed.

Lemma selected_NoDup (idf : V -> K) (p : V -> bool) d :
  Dict.wf d ->
  (forall k v, In (k, v) d -> idf v = k) ->
  NoDup (selected idf p d).
Proof.
  unfold Dict.wf, Dict.keys.
  induction d as [|[k v] d IH]; intros Hnd Hkey; [constructor|].
  inversion Hnd as [|? ? Hnotin Hnd']; subst.
  assert (Hkey' : forall k' v', In (k', v') d -> idf v' = k')
    by (intros; apply Hkey; now right).
  unfold selected, Dict.values. cbn [map filter snd].
  destruct (p v); [|now apply IH].
  cbn [map]. constructor; [|now apply IH].
  rewrite (Hkey k v) by now left.
  intros Hin. apply Hnotin.
  apply (@selected_In idf p d k Hkey') in Hin. destruct Hin as (v' & Hin & _).
  apply in_map_iff. now exists (k, v').
Qed.

(** Deleting the snapshot leaves the entries [p] does not select. *)
Lemma del_selected (idf : V -> K) (p : V -> bool) d :
  Dict.wf d ->
  (forall k v, In (k, v) d -> idf v = k) ->
  fold_left (fun d' k => Dict.del k d') (selected idf p d) d
  = filter (fun kv => negb (p (snd kv))) d.
Proof.
  intros Hwf Hkey. rewrite fold_del. apply filter_ext_in.
  intros [k v] Hin. cbn [fst snd]. f_equal.
  destruct (p v) eqn:Hp.
  - apply inb_In. apply (@selected_In idf p d k Hkey). eauto.
  - destruct (inb k (selected idf p d)) eqn:E; [|reflexivity].
    apply inb_In in E. apply (@selected_In idf p d k Hkey) in E.
    destruct E as (v' & Hin' & Hp').
    apply (@In_get _ _ _ Hwf) in Hin. apply (@In_get _ _ _ Hwf) in Hin'.
    congruence.
Qed.
End DictDelete.

(** ** The sweep of [remove_tenant], component by component *)

Lemma set_obj_same (c : Component) ms :
  modules (obj c) = Some ms ->
  set_obj c (mkObj (path (obj c)) (Some ms)) = c.
Proof. destruct c as [[p m] ? ? ? ? ?]. cbn. now intros ->. Qed.

Lemma set_components_same w : set_components (components (self w)) w = w.
Proof. destruct w as [? [? ? ?] ? ?]. reflexivity. Qed.

Lemma call_method_run name attr h sel w c f o' :
  Dict.get name (components (self w)) = Some c ->
  sel c = Some f ->
  f (obj c) = (o', None) ->
  call_method name attr h sel w
  = mkRun [EvHook name h]
      (set_components (Dict.set name (set_obj c o') (components (self w))) w)
      (Return tt).
Proof.
  intros Hget Hsel Hf.
  unfold call_method, the_component, bind, get_self. cbn.
  rewrite Hget. cbn. rewrite Hsel. cbn. rewrite Hf. cbn. reflexivity.
Qed.

(** The inner loop: every module of the snapshot is there when its turn
    comes, and the component's own [remove_module] deletes it. *)
Lemma remove_modules_loop name f (ids : list N) :
  removes_module f ->
  NoDup ids ->
  forall w c ms,
    Dict.get name (components (self w)) = Some c ->
    remove_module c = Some f ->
    modules (obj c) = Some ms ->
    (forall id, In id ids -> Dict.mem id ms = true) ->
    for_each ids (fun module_id =>
      call_method name "remove_module" (HRemoveModule module_id)
        (fun c => option_map (fun f => f module_id) (remove_module c))) w
    = mkRun (map (fun id => EvHook name (HRemoveModule id)) ids)
        (set_components
           (Dict.set name
              (set_obj c (mkObj (path (obj c))
                            (Some (fold_left (fun d id => Dict.del id d) ids ms))))
              (components (self w))) w)
        (Return tt).
Proof.
  intros Hf. induction 1 as [|id ids Hnotin Hnd IH]; intros w c ms Hget Hrm Hms Hall.
  - cbn. rewrite (set_obj_same _ Hms), set_get_same by exact Hget.
    now rewrite set_components_same.
  - cbn [for_each map fold_left].
    assert (Hstep : f id (obj c)
                    = (mkObj (path (obj c)) (Some (Dict.del id ms)), None))
      by (apply Hf; [assumption | apply Hall; now left]).
    erewrite bind_Return; cycle 1.
    { eapply call_method_run; [exact Hget | now rewrite Hrm | exact Hstep]. }
    rewrite (IH _ (set_obj c (mkObj (path (obj c)) (Some (Dict.del id ms))))
               (Dict.del id ms)).
    + unfold prepend. cbn. now rewrite set_set.
    + cbn. apply get_set_same.
    + exact Hrm.
    + reflexivity.
    + intros id' Hin. apply mem_del_other.
      * intros ->. contradiction.
      * apply Hall. now right.
Qed.

Lemma modules_of_tenant_selected t ms :
  modules_of_tenant t ms
  = selected Module_.module_id (fun m => (Module_.tenant_id m =? t)%N) ms.
Proof. reflexivity. Qed.

Lemma sweep_component_run t name w c :
  Dict.get name (components (self w)) = Some c ->
  worker_ok c ->
  sweep_component t name w
  = mkRun (sweep_events t [(name, c)])
      (set_components (Dict.set name (swept t c) (components (self w))) w)
      (Return tt).
Proof.
  intros Hget Hok.
  unfold sweep_component, sweep_events, swept. cbn [flat_map fst snd].
  rewrite app_nil_r.
  unfold bind at 1. cbn. rewrite Hget.
  destruct (modules (obj c)) as [ms|] eqn:Hms.
  - destruct (Hok ms Hms) as ([Hwf Hkey] & f & Hrm & Hf).
    rewrite (@remove_modules_loop name f (modules_of_tenant t ms) Hf
               (selected_NoDup _ _ Hwf Hkey) w c ms Hget Hrm Hms
               (fun id => @selected_mem _ _ _ _ _ _ id Hkey)).
    rewrite prepend_nil. rewrite modules_of_tenant_selected.
    rewrite (del_selected _ _ Hwf Hkey). reflexivity.
  - cbn. rewrite set_get_same by exact Hget. now rewrite set_components_same.
Qed.

(** The outer loop, with the components already swept in front. *)
Lemma sweep_loop t (rest : Dict.t string Component) :
  forall (swept_so_far : Dict.t string Component) w,
    components (self w) = swept_so_far ++ rest ->
    Dict.wf (swept_so_far ++ rest) ->
    (forall n c, In (n, c) rest -> worker_ok c) ->
    for_each (Dict.keys rest) (sweep_component t) w
    = mkRun (sweep_events t rest)
        (set_components (swept_so_far ++ sweep_all t rest) w)
        (Return tt).
Proof.
  induction rest as [|[n c] rest IH]; intros front w Hcs Hwf Hok.
  - cbn. rewrite app_nil_r in *. rewrite <- Hcs. now rewrite set_components_same.
  - cbn [Dict.keys map fst for_each].
    assert (Hfresh : ~ In n (Dict.keys front)).
    { unfold Dict.wf, Dict.keys in *. rewrite map_app in Hwf. cbn in Hwf.
      apply NoDup_remove_2 in Hwf. intros Hin. apply Hwf.
      apply in_or_app. now left. }
    assert (Hget : Dict.get n (components (self w)) = Some c).
    { rewrite Hcs, get_app_fresh by exact Hfresh. cbn. now rewrite String.eqb_refl. }
    erewrite bind_Return; cycle 1.
    { apply sweep_component_run; [exact Hget | apply (Hok n c); now left]. }
    fold (Dict.keys rest).
    rewrite (IH (front ++ [(n, swept t c)])).
    + unfold prepend, sweep_events, sweep_all. cbn.
      rewrite app_nil_r, <- app_assoc. reflexivity.
    + cbn. rewrite Hcs, set_app_fresh by exact Hfresh. cbn.
      rewrite String.eqb_refl, <- app_assoc. reflexivity.
    + unfold Dict.wf, Dict.keys in *. rewrite <- app_assoc.
      rewrite !map_app in *. exact Hwf.
    + intros n' c' Hin. apply (Hok n' c'). now right.
Qed.

(** [remove_tenant] on a live tenant that has its row, with components
    that keep the plug-in contract: it runs to the end. *)
Lemma remove_tenant_run t w :
  Dict.mem t (tenants (self w)) = true ->
  has_tenant_row t (db w) = true ->
  components_ok (components (self w)) ->
  exists row,
    find (fun r => (TblTenant.tenant_id r =? t)%N) (tbl_tenant (db w)) = Some row
    /\ remove_tenant t w
       = mkRun (EvMem (WDelTenant t) :: EvCommit [SDelete (RTenant row)]
                :: sweep_events t (components (self w)))
           (after_remove_tenant t w)
           (Return tt).
Proof.
  intros Hlive Hrow [Hwf Hok].
  unfold has_tenant_row in Hrow.
  destruct (find (fun r => (TblTenant.tenant_id r =? t)%N) (tbl_tenant (db w)))
    as [row|] eqn:Hfind.
  2:{ apply existsb_exists in Hrow. destruct Hrow as (x & Hin & Hx).
      now rewrite (find_none _ _ Hfind x Hin) in Hx. }
  exists row. split; [reflexivity|].
  pose proof (find_some _ _ Hfind) as [_ Hid]. apply N.eqb_eq in Hid.
  unfold remove_tenant. unfold bind at 1. cbn. rewrite Hlive. cbn.
  rewrite Hfind. unfold bind, session_commit. cbn.
  fold (Dict.keys (components (self w))).
  match goal with
  | |- context [for_each _ _ ?w1] =>
      rewrite (@sweep_loop t (components (self w)) [] w1 eq_refl Hwf Hok)
  end.
  unfold prepend, after_remove_tenant, delete_tenant_row, set_components. cbn.
  now rewrite Hid.
Qed.

Lemma get_sweep_all t name cs :
  Dict.get name (sweep_all t cs) = option_map (swept t) (Dict.get name cs).
Proof.
  induction cs as [|[n c] cs IH]; cbn; [reflexivity|].
  destruct (name =? n)%string; [reflexivity | exact IH].
Qed.

Lemma sweep_events_hooks t cs : filter is_hook (sweep_events t cs) = sweep_events t cs.
Proof.
  apply forallb_filter_id. unfold sweep_events. apply forallb_forall.
  intros e Hin. apply in_flat_map in Hin. destruct Hin as ([n c] & _ & Hin).
  cbn in Hin. destruct (modules (obj c)); [|contradiction].
  apply in_map_iff in Hin. now destruct Hin as (id & <- & _).
Qed.

Lemma ModuleWorker_remove_module_ok : removes_module ModuleWorker_remove_module.
Proof.
  intros id o ms Hms Hmem. unfold ModuleWorker_remove_module.
  now rewrite Hms, Hmem.
Qed.

Lemma populated_components :
  components (self populated)
  = [("worker", set_path a_worker "worker"); ("server", set_path a_server "server")].
Proof. vm_compute. reflexivity. Qed.

Lemma populated_components_ok : components_ok (components (self populated)).
Proof.
  rewrite populated_components. split.
  - unfold Dict.wf. cbn. repeat constructor; cbn; intuition discriminate.
  - intros n c Hin ms Hms.
    destruct Hin as [[= <- <-] | [[= <- <-] | []]]; cbn in Hms; [|discriminate].
    injection Hms as <-. split.
    + split.
      * unfold Dict.wf. cbn. repeat constructor; cbn; intuition discriminate.
      * intros k m [[= <- <-] | [[= <- <-] | []]]; reflexivity.
    + exists ModuleWorker_remove_module. split; [reflexivity|].
      apply ModuleWorker_remove_module_ok.
Qed.

(** ** Cascade on tenant removal *)

(** C4: for a live tenant (in the registry, with its row in the table)
    and components that keep the plug-in contract, [remove_tenant] runs to
    the end, calls [remove_module] of every component that has a [modules]
    collection once for each module of the tenant, in the order of the
    snapshot it took, and leaves in each collection exactly the modules of
    the other tenants, as they were; a component without [modules] is not
    touched. *)
Theorem remove_tenant_sweeps_modules (w : World) (t : UUID) :
  Dict.mem t (tenants (self w)) = true ->
  has_tenant_row t (db w) = true ->
  components_ok (components (self w)) ->
  let r := remove_tenant t w in
  outcome r = Return tt
  /\ components (self (world r)) = sweep_all t (components (self w))
  /\ filter is_hook (events r) = sweep_events t (components (self w))
  /\ (forall name c ms,
        Dict.get name (components (self w)) = Some c ->
        modules (obj c) = Some ms ->
        exists c',
          Dict.get name (components (self (world r))) = Some c'
          /\ modules (obj c') = Some (other_tenants t ms)
          /\ forall k m, In (k, m) (other_tenants t ms)
                         <-> In (k, m) ms /\ Module_.tenant_id m <> t)
  /\ (forall name c,
        Dict.get name (components (self w)) = Some c ->
        modules (obj c) = None ->
        Dict.get name (components (self (world r))) = Some c).
Proof.
  intros Hlive Hrow Hok. cbn zeta.
  destruct (remove_tenant_run t w Hlive Hrow Hok) as (row & _ & E).
  rewrite E. cbn [outcome world events self after_remove_tenant components].
  split; [reflexivity|]. split; [reflexivity|]. split.
  { cbn [filter is_hook]. now rewrite sweep_events_hooks. }
  split.
  - intros name c ms Hget Hms.
    exists (swept t c). rewrite get_sweep_all, Hget. split; [reflexivity|].
    unfold swept. rewrite Hms. split; [reflexivity|].
    intros k m. unfold other_tenants. rewrite filter_In. cbn.
    rewrite negb_true_iff, N.eqb_neq. reflexivity.
  - intros name c Hget Hms. rewrite get_sweep_all, Hget. cbn.
    unfold swept. now rewrite Hms.
Qed.

Lemma remove_tenant_sweeps_modules_witness :
  Dict.get "worker" (components (self populated))
  = Some (set_path a_worker "worker")
  /\ modules (obj a_worker)
     = Some [(10%N, Module_.mk 10%N 1%N); (11%N, Module_.mk 11%N 3%N)]
  /\ option_map (fun c => modules (obj c))
       (Dict.get "worker" (components (self (world (remove_tenant 1%N populated)))))
     = Some (Some [(11%N, Module_.mk 11%N 3%N)]).
Proof.
  split; [reflexivity|]. split; [reflexivity|].
  destruct (remove_tenant_sweeps_modules populated 1%N eq_refl eq_refl
              populated_components_ok) as (_ & Hcs & _).
  rewrite Hcs. reflexivity.
Defined.

(** ** The cascade of [remove_account], tenant by tenant *)

Lemma other_tenants_wf t ms : modules_wf ms -> modules_wf (other_tenants t ms).
Proof.
  intros [Hwf Hkey]. split.
  - now apply wf_filter.
  - intros k m Hin. apply filter_In in Hin. now apply Hkey.
Qed.

Lemma swept_worker_ok t c : worker_ok c -> worker_ok (swept t c).
Proof.
  intros Hok ms Hms. unfold swept in Hms.
  destruct (modules (obj c)) as [ms0|] eqn:E.
  - cbn in Hms. injection Hms as <-.
    destruct (Hok ms0 E) as (Hwf & f & Hrm & Hf).
    split; [now apply other_tenants_wf|].
    exists f. unfold swept. rewrite E. now split.
  - rewrite E in Hms. discriminate.
Qed.

Lemma sweep_all_ok t cs : components_ok cs -> components_ok (sweep_all t cs).
Proof.
  intros [Hwf Hok]. split.
  - unfold Dict.wf, Dict.keys, sweep_all in *. now rewrite map_map.
  - intros n c Hin. unfold sweep_all in Hin. apply in_map_iff in Hin.
    destruct Hin as ([n0 c0] & [= <- <-] & Hin). cbn.
    apply swept_worker_ok. now apply (Hok n0).
Qed.

Lemma has_tenant_row_other t t' store :
  t' <> t ->
  has_tenant_row t' store = true ->
  has_tenant_row t' (delete_tenant_row t store) = true.
Proof.
  unfold has_tenant_row, delete_tenant_row. cbn. intros Hneq Hrow.
  apply existsb_exists in Hrow. destruct Hrow as (x & Hin & Hx).
  apply existsb_exists. exists x. split; [|assumption].
  apply filter_In. split; [assumption|].
  apply N.eqb_eq in Hx. apply negb_true_iff, N.eqb_neq. congruence.
Qed.

Lemma filter_inb_cons {A K} `{EqKey K} (idf : A -> K) (k : K) (ks : list K)
  (l : list A) :
  filter (fun r => negb (inb (idf r) ks)) (filter (fun r => negb (keq (idf r) k)) l)
  = filter (fun r => negb (inb (idf r) (k :: ks))) l.
Proof.
  induction l as [|a l IH]; [reflexivity|].
  cbn [filter inb existsb].
  destruct (keq (idf a) k); cbn [negb orb filter]; [exact IH|].
  fold (inb (idf a) ks). destruct (inb (idf a) ks); cbn [negb]; [exact IH|].
  now f_equal.
Qed.

(** The world after a whole cascade. *)
Lemma cascade_world (ids : list UUID) : forall w,
  let w' := fold_left (fun w0 t => after_remove_tenant t w0) ids w in
  tenants (self w') = fold_left (fun d k => Dict.del k d) ids (tenants (self w))
  /\ tbl_tenant (db w')
     = filter (fun r => negb (inb (TblTenant.tenant_id r) ids)) (tbl_tenant (db w))
  /\ accounts (self w') = accounts (self w)
  /\ tbl_account (db w') = tbl_account (db w)
  /\ tbl_pending (db w') = tbl_pending (db w).
Proof.
  induction ids as [|t ids IH]; intros w; cbn zeta; cbn [fold_left].
  - repeat split. symmetry. apply forallb_filter_id. now apply forallb_forall.
  - destruct (IH (after_remove_tenant t w)) as (Ht & Hrows & Ha & Hacc & Hp).
    rewrite Ht, Hrows, Ha, Hacc, Hp.
    unfold after_remove_tenant, delete_tenant_row.
    cbn [self db tenants tbl_tenant accounts tbl_account tbl_pending].
    repeat split.
    exact (@filter_inb_cons _ N EqKey_N TblTenant.tenant_id t ids
             (tbl_tenant (db w))).
Qed.

Lemma cascade_loop (ids : list UUID) :
  NoDup ids ->
  forall w,
    (forall t, In t ids -> Dict.mem t (tenants (self w)) = true) ->
    (forall t, In t ids -> has_tenant_row t (db w) = true) ->
    components_ok (components (self w)) ->
    exists ev,
      for_each ids remove_tenant w
      = mkRun ev (fold_left (fun w0 t => after_remove_tenant t w0) ids w)
          (Return tt).
Proof.
  induction 1 as [|t ids Hnotin Hnd IH]; intros w Hlive Hrows Hok.
  - exists []. reflexivity.
  - destruct (remove_tenant_run t w) as (row & _ & E);
      [apply Hlive; now left | apply Hrows; now left | assumption |].
    destruct (IH (after_remove_tenant t w)) as (ev & E').
    + intros t' Hin. cbn. apply mem_del_other;
        [intros ->; contradiction | apply Hlive; now right].
    + intros t' Hin. cbn. apply has_tenant_row_other;
        [intros ->; contradiction | apply Hrows; now right].
    + cbn. now apply sweep_all_ok.
    + eexists. cbn [for_each fold_left].
      erewrite bind_Return by exact E. rewrite E'. unfold prepend. cbn.
      reflexivity.
Qed.

(** ** Cascade on account removal *)

(** C3: for an account other than [root] that has its row and its entry,
    a tenants dictionary keyed by tenant id in which every tenant of the
    account has its row, and components that keep the plug-in contract,
    [remove_account] runs to the end; the account's row and entry are gone;
    of the tenants exactly those whose owner is the account are gone, from
    the registry and from the table, and every other tenant is still there
    as it was. *)
Theorem remove_account_cascade (w : World) (username : string) :
  (username =? "root") = false ->
  existsb (fun r => TblAccount.username r =? username) (tbl_account (db w)) = true ->
  Dict.mem username (accounts (self w)) = true ->
  tenants_wf (tenants (self w)) ->
  (forall t, In t (tenants_owned_by username (tenants (self w))) ->
             has_tenant_row t (db w) = true) ->
  components_ok (components (self w)) ->
  let r := remove_account username w in
  outcome r = Return tt
  /\ tbl_account (db (world r))
     = filter (fun r => negb (TblAccount.username r =? username)) (tbl_account (db w))
  /\ accounts (self (world r)) = Dict.del username (accounts (self w))
  /\ tenants (self (world r))
     = filter (fun kv => negb (Tenant.owner (snd kv) =? username)) (tenants (self w))
  /\ tbl_tenant (db (world r))
     = filter (fun r => negb (inb (TblTenant.tenant_id r)
                                (tenants_owned_by username (tenants (self w)))))
         (tbl_tenant (db w))
  /\ tbl_pending (db (world r)) = tbl_pending (db w).
Proof.
  intros Hroot Hrow Hmem [Hwf Hkey] Hrows Hok. cbn zeta.
  destruct (find (fun r => TblAccount.username r =? username) (tbl_account (db w)))
    as [row|] eqn:Hfind.
  2:{ apply existsb_exists in Hrow. destruct Hrow as (x & Hin & Hx).
      now rewrite (find_none _ _ Hfind x Hin) in Hx. }
  pose proof (find_some _ _ Hfind) as [_ Hname]. apply String.eqb_eq in Hname.
  unfold remove_account. rewrite Hroot.
  unfold bind at 1. cbn. rewrite Hfind. cbn.
  unfold bind, session_commit. cbn. rewrite Hmem. cbn.
  match goal with
  | |- context [for_each ?ids remove_tenant ?w1] =>
      destruct (@cascade_loop ids (selected_NoDup _ _ Hwf Hkey) w1) as (ev & E);
      [ intros t Hin; cbn; exact (@selected_mem _ _ _ Tenant.tenant_id _ _ t Hkey Hin)
      | intros t Hin; cbn; exact (Hrows t Hin)
      | exact Hok
      | rewrite E;
        destruct (cascade_world ids w1) as (Ht & Hrs & Ha & Hacc & Hp) ]
  end.
  unfold prepend. cbn [outcome world events].
  rewrite Ht, Hrs, Ha, Hacc, Hp. cbn. rewrite Hname.
  repeat split.
  exact (@del_selected _ _ _ Tenant.tenant_id
           (fun x => Tenant.owner x =? username) _ Hwf Hkey).
Qed.
Lemma populated_tenants :
  tenants (self populated)
  = [(1%N, Tenant.mk 1%N "net1" "foo" "first");
     (2%N, Tenant.mk 2%N "net2" "foo" "second");
     (3%N, Tenant.mk 3%N "net3" "bar" "third")].
Proof. vm_compute. reflexivity. Qed.

Lemma populated_tenants_wf : tenants_wf (tenants (self populated)).
Proof.
  rewrite populated_tenants. split.
  - unfold Dict.wf. cbn. repeat constructor; cbn; intuition discriminate.
  - intros k t [[= <- <-] | [[= <- <-] | [[= <- <-] | []]]]; reflexivity.
Qed.

Lemma remove_account_cascade_witness :
  map fst (tenants (self populated)) = [1%N; 2%N; 3%N]
  /\ map (fun kv => Tenant.owner (snd kv)) (tenants (self populated))
     = ["foo"; "foo"; "bar"]
  /\ tenants (self (world (remove_account "foo" populated)))
     = [(3%N, Tenant.mk 3%N "net3" "bar" "third")]
  /\ tbl_tenant (db (world (remove_account "foo" populated)))
     = [TblTenant.mk 3%N "net3" "bar" "third"]
  /\ Dict.mem "foo" (accounts (self (world (remove_account "foo" populated))))
     = false.
Proof.
  split; [reflexivity|]. split; [reflexivity|].
  destruct (remove_account_cascade populated "foo" eq_refl eq_refl eq_refl
              populated_tenants_wf)
    as (_ & _ & Hacc & Hts & Hrows & _).
  - intros t Hin. rewrite populated_tenants in Hin.
    destruct Hin as [<- | [<- | []]]; reflexivity.
  - exact populated_components_ok.
  - rewrite Hts, Hrows, Hacc. repeat split.
Defined.

(** * Further properties of the runtime *)

Lemma find_existsb {A} (p : A -> bool) (l : list A) :
  existsb p l = false -> find p l = None.
Proof.
  induction l as [|a l IH]; cbn; [reflexivity|].
  destruct (p a); cbn; [discriminate | exact IH].
Qed.

Lemma existsb_find {A} (p : A -> bool) (l : list A) :
  existsb p l = true -> exists a, find p l = Some a /\ p a = true.
Proof.
  induction l as [|a l IH]; cbn; [discriminate|].
  destruct (p a) eqn:E; cbn; [eauto | exact IH].
Qed.

(** ** Accounts: what goes wrong, and how *)

(** X2: a username that the table holds but the registry does not makes
    [create_account] fail at the commit: the [IntegrityError] reaches the
    caller as it is (no handler, no error kind of the design), and nothing
    has changed. *)
Theorem create_account_row_exists (w : World)
  (username password role name surname email : string) :
  Dict.mem username (accounts (self w)) = false ->
  has_account_row username (db w) = true ->
  create_account username password role name surname email w
  = mkRun [] w (Raise IntegrityError)
  /\ error_kind IntegrityError = None.
Proof.
  intros Hmem Hrow. split; [|reflexivity]. unfold has_account_row in Hrow.
  unfold create_account, bind, get_self, session_commit. cbn.
  rewrite Hmem. cbn. now rewrite Hrow.
Qed.

Lemma create_account_row_exists_witness :
  create_account "foo" "secret" "user" "Foo" "Again" "foo@example.org" seeded
  = mkRun [] seeded (Raise IntegrityError).
Proof.
  apply (create_account_row_exists seeded "foo" "secret" "user" "Foo" "Again"
           "foo@example.org"); reflexivity.
Defined.

(** X3: removing an account that has no row is a [KeyError] on its name, and
    nothing has changed, whether or not the registry knows the name. *)
Theorem remove_account_no_row (w : World) (username : string) :
  (username =? "root") = false ->
  has_account_row username (db w) = false ->
  remove_account username w = mkRun [] w (Raise (KeyError (KStr username)))
  /\ error_kind (KeyError (KStr username)) = Some NotFound.
Proof.
  intros Hroot Hrow. split; [|reflexivity].
  unfold remove_account. rewrite Hroot. unfold bind, get_db. cbn.
  now rewrite (find_existsb _ _ Hrow).
Qed.

Lemma remove_account_no_row_witness :
  remove_account "nobody" populated
  = mkRun [] populated (Raise (KeyError (KStr "nobody"))).
Proof. apply (remove_account_no_row populated "nobody"); reflexivity. Defined.

(** X4: removing an account that has its row but no entry in the registry
    deletes the row, commits, and only then fails on [del
    self.accounts[username]]: the call ends in a [KeyError] with the row
    gone, and no tenant of the account has been removed. *)
Theorem remove_account_no_entry (w : World) (username : string) :
  (username =? "root") = false ->
  has_account_row username (db w) = true ->
  Dict.mem username (accounts (self w)) = false ->
  let r := remove_account username w in
  outcome r = Raise (KeyError (KStr username))
  /\ (exists row, events r = [EvCommit [SDelete (RAccount row)]]
                  /\ TblAccount.username row = username)
  /\ tbl_account (db (world r))
     = filter (fun x => negb (TblAccount.username x =? username)) (tbl_account (db w))
  /\ tbl_tenant (db (world r)) = tbl_tenant (db w)
  /\ self (world r) = self w.
Proof.
  intros Hroot Hrow Hmem. cbn zeta.
  destruct (existsb_find _ _ Hrow) as (row & Hfind & Hname).
  apply String.eqb_eq in Hname.
  unfold remove_account. rewrite Hroot.
  unfold bind, get_db, session_commit. cbn. rewrite Hfind. cbn.
  rewrite Hmem. cbn. rewrite Hname.
  repeat split. exists row. now split.
Qed.

Lemma remove_account_no_entry_witness :
  outcome (remove_account "foo" seeded) = Raise (KeyError (KStr "foo"))
  /\ map TblAccount.username (tbl_account (db (world (remove_account "foo" seeded))))
     = ["root"; "bar"].
Proof.
  destruct (remove_account_no_entry seeded "foo" eq_refl eq_refl eq_refl)
    as (Hout & _ & Hrows & _).
  split; [exact Hout|]. rewrite Hrows. reflexivity.
Defined.

(** ** Tenants: what goes wrong, and how *)

(** X5: a row the table refuses, because its name or its id is taken, makes
    [add_tenant] roll back and raise "Tenant name exists", a
    [DuplicateEntity], whichever of the two collided; the tables and the
    registry are as before, the tenant that holds the name with them. *)
Theorem add_tenant_refused (w : World) (owner desc tenant_name : string)
  (tenant_id : option UUID) :
  in_tenants tenant_id (self w) = false ->
  tenant_clash (TblTenant.mk (assigned_id tenant_id w) tenant_name owner desc) (db w)
  = true ->
  let r := add_tenant owner desc tenant_name tenant_id w in
  events r = [EvRollback]
  /\ outcome r = Raise (ValueError (Tenant_name_exists tenant_name))
  /\ error_kind (ValueError (Tenant_name_exists tenant_name)) = Some DuplicateEntity
  /\ db (world r) = db w
  /\ self (world r) = self w.
Proof.
  intros Hlive Hclash. cbn zeta. unfold tenant_clash in Hclash.
  unfold add_tenant, bind, get_self, try_except, session_commit. cbn.
  rewrite Hlive.
  destruct tenant_id as [t|]; cbn in *; rewrite Hclash; cbn; repeat split.
Qed.

Lemma add_tenant_refused_witness :
  outcome (add_tenant "bar" "again" "net1" (Some 9%N) populated)
  = Raise (ValueError (Tenant_name_exists "net1"))
  /\ tenants (self (world (add_tenant "bar" "again" "net1" (Some 9%N) populated)))
     = tenants (self populated).
Proof.
  destruct (add_tenant_refused populated "bar" "again" "net1" (Some 9%N)
              eq_refl eq_refl) as (_ & Hout & _ & _ & Hself).
  split; [exact Hout | now rewrite Hself].
Defined.

(** X8: [remove_tenant] on an id that is not live is a [KeyError] on the id,
    with nothing changed, whether or not the table has a row for it. *)
Theorem remove_tenant_not_live (w : World) (t : UUID) :
  Dict.mem t (tenants (self w)) = false ->
  remove_tenant t w = mkRun [] w (Raise (KeyError (KUuid t)))
  /\ error_kind (KeyError (KUuid t)) = Some NotFound.
Proof.
  intros Hmem. split; [|reflexivity].
  unfold remove_tenant, bind, get_self. cbn. now rewrite Hmem.
Qed.

Lemma remove_tenant_not_live_witness :
  remove_tenant 9%N populated = mkRun [] populated (Raise (KeyError (KUuid 9%N))).
Proof. apply (remove_tenant_not_live populated 9%N). reflexivity. Defined.

(** X9: [remove_tenant] on a tenant that is live but has no row deletes the
    entry from the registry and then fails in [session.delete]: the call
    ends in an error with the entry gone, nothing committed and no module
    of any component removed. *)
Theorem remove_tenant_no_row (w : World) (t : UUID) :
  Dict.mem t (tenants (self w)) = true ->
  has_tenant_row t (db w) = false ->
  let r := remove_tenant t w in
  events r = [EvMem (WDelTenant t)]
  /\ outcome r = Raise UnmappedInstanceError
  /\ tenants (self (world r)) = Dict.del t (tenants (self w))
  /\ components (self (world r)) = components (self w)
  /\ db (world r) = db w.
Proof.
  intros Hmem Hrow. cbn zeta. unfold has_tenant_row in Hrow.
  unfold remove_tenant, bind, get_self, get_db. cbn. rewrite Hmem. cbn.
  rewrite (find_existsb _ _ Hrow). cbn. repeat split.
Qed.

Lemma remove_tenant_no_row_witness :
  outcome (remove_tenant 1%N stale) = Raise UnmappedInstanceError
  /\ Dict.keys (tenants (self (world (remove_tenant 1%N stale)))) = [2%N; 3%N].
Proof.
  destruct (remove_tenant_no_row stale 1%N eq_refl eq_refl)
    as (_ & Hout & Hts & _).
  split; [exact Hout|]. rewrite Hts. reflexivity.
Defined.

(** X12: rejecting a request that is not pending is a [KeyError] on the id,
    with nothing changed. *)
Theorem reject_tenant_not_pending (w : World) (t : UUID) :
  has_pending t w = false ->
  reject_tenant t w = mkRun [] w (Raise (KeyError (KUuid t)))
  /\ error_kind (KeyError (KUuid t)) = Some NotFound.
Proof.
  intros Hp. split; [|reflexivity]. unfold has_pending in Hp.
  unfold reject_tenant, bind, get_db. cbn. now rewrite (find_existsb _ _ Hp).
Qed.

Lemma reject_tenant_not_pending_witness :
  reject_tenant 1%N with_pending
  = mkRun [] with_pending (Raise (KeyError (KUuid 1%N))).
Proof. apply (reject_tenant_not_pending with_pending 1%N). reflexivity. Defined.

(** ** Appending to a dictionary or a table, and taking it back *)

Lemma set_fresh {K V} `{EqKey K} (k : K) (v : V) (d : Dict.t K V) :
  Dict.mem k d = false -> Dict.set k v d = d ++ [(k, v)].
Proof.
  unfold Dict.mem. induction d as [|[k' v'] d IH]; cbn; [reflexivity|].
  destruct (keq k k'); [discriminate|]. intros Hmem. now rewrite IH.
Qed.

Lemma del_fresh {K V} `{EqKey K} (k : K) (d : Dict.t K V) :
  Dict.mem k d = false -> Dict.del k d = d.
Proof.
  unfold Dict.mem, Dict.del. induction d as [|[k' v'] d IH]; cbn; [reflexivity|].
  destruct (keq k k'); [discriminate|]. intros Hmem. cbn. now rewrite IH.
Qed.

Lemma del_set_fresh {K V} `{EqKey K} (k : K) (v : V) (d : Dict.t K V) :
  Dict.mem k d = false -> Dict.del k (Dict.set k v d) = d.
Proof.
  intros Hmem. rewrite set_fresh by exact Hmem. unfold Dict.del.
  rewrite filter_app. cbn. rewrite keq_refl. cbn. rewrite app_nil_r.
  now apply del_fresh.
Qed.

Lemma filter_app_fresh {A} (p : A -> bool) (l : list A) (a : A) :
  existsb p l = false -> p a = true ->
  filter (fun x => negb (p x)) (l ++ [a]) = l.
Proof.
  intros Hl Ha. rewrite filter_app. cbn. rewrite Ha. cbn. rewrite app_nil_r.
  apply forallb_filter_id. induction l as [|x l IH]; cbn in *; [reflexivity|].
  apply orb_false_elim in Hl. destruct Hl as [-> Hl]. cbn. auto.
Qed.

Lemma find_app_fresh {A} (p : A -> bool) (l : list A) (a : A) :
  existsb p l = false -> p a = true -> find p (l ++ [a]) = Some a.
Proof.
  intros Hl Ha. induction l as [|x l IH]; cbn in *; [now rewrite Ha|].
  apply orb_false_elim in Hl. destruct Hl as [-> Hl]. auto.
Qed.

Lemma existsb_weaken {A} (p q : A -> bool) (l : list A) :
  (forall x, q x = true -> p x = true) ->
  existsb p l = false -> existsb q l = false.
Proof.
  intros Hpq. induction l as [|x l IH]; cbn; [reflexivity|].
  intros H. apply orb_false_elim in H. destruct H as [Hx Hl].
  rewrite (IH Hl), orb_false_r.
  destruct (q x) eqn:E; [|reflexivity]. apply Hpq in E. congruence.
Qed.

(** ** Accounts: create, then log in *)

(** X1: a username that neither the registry nor the table knows is created:
    [create_account] commits the row, then writes the entry, each argument
    in its own field; from then on [check_permission] accepts exactly the
    password given, and [get_account] returns the account. *)
Theorem create_account_then_login (w : World)
  (username password role name surname email : string) :
  Dict.mem username (accounts (self w)) = false ->
  has_account_row username (db w) = false ->
  let row := TblAccount.mk username password role name surname email in
  let account := Account.mk username password name surname email role in
  let r := create_account username password role name surname email w in
  events r = [EvCommit [SAdd (RAccount row)]; EvMem (WSetAccount username)]
  /\ outcome r = Return tt
  /\ tbl_account (db (world r)) = tbl_account (db w) ++ [row]
  /\ accounts (self (world r)) = accounts (self w) ++ [(username, account)]
  /\ (forall guess,
        outcome (check_permission username guess (world r))
        = Return (password =? guess))
  /\ outcome (get_account username (world r)) = Return (Some account).
Proof.
  intros Hmem Hrow. cbn zeta. unfold has_account_row in Hrow.
  assert (E : create_account username password role name surname email w
              = mkRun [EvCommit [SAdd (RAccount
                                         (TblAccount.mk username password role name
                                            surname email))];
                       EvMem (WSetAccount username)]
                  (mkWorld
                     (mkStore (tbl_account (db w)
                               ++ [TblAccount.mk username password role name
                                     surname email])
                        (tbl_tenant (db w)) (tbl_pending (db w)))
                     (with_accounts
                        (Dict.set username
                           (Account.mk username password name surname email role))
                        (self w))
                     (uuid_source w) (uuid_drawn w))
                  (Return tt)).
  { unfold create_account, bind, get_self, session_commit. cbn.
    rewrite Hmem. cbn. rewrite Hrow. reflexivity. }
  rewrite E. cbn [events outcome world db self with_accounts accounts tbl_account].
  repeat split.
  - now apply set_fresh.
  - intros guess. unfold check_permission, bind, get_self. cbn.
    now rewrite get_set_same.
  - unfold get_account, bind, get_self. cbn. now rewrite get_set_same.
Qed.

Lemma create_account_then_login_witness :
  outcome (create_account "baz" "pw" "user" "Baz" "Q" "baz@empower.net" booted)
  = Return tt
  /\ outcome (check_permission "baz" "pw"
                (world (create_account "baz" "pw" "user" "Baz" "Q"
                          "baz@empower.net" booted)))
     = Return true
  /\ outcome (check_permission "baz" "user"
                (world (create_account "baz" "pw" "user" "Baz" "Q"
                          "baz@empower.net" booted)))
     = Return false.
Proof.
  destruct (create_account_then_login booted "baz" "pw" "user" "Baz" "Q"
              "baz@empower.net" eq_refl eq_refl) as (_ & Hout & _ & _ & Hlogin & _).
  split; [exact Hout|]. split; apply Hlogin.
Defined.

(** ** Tenants: add, then remove *)

(** [add_tenant] when everything is in place. *)
Lemma add_tenant_run (w : World) (owner desc tenant_name : string)
  (tenant_id : option UUID) (account : Account.t) :
  Dict.get owner (accounts (self w)) = Some account ->
  in_tenants tenant_id (self w) = false ->
  tenant_clash (TblTenant.mk (assigned_id tenant_id w) tenant_name owner desc) (db w)
  = false ->
  let id := assigned_id tenant_id w in
  let row := TblTenant.mk id tenant_name owner desc in
  let tenant := Tenant.mk id tenant_name (Account.username account) desc in
  let r := add_tenant owner desc tenant_name tenant_id w in
  events r = [EvCommit [SAdd (RTenant row)]; EvMem (WSetTenant id)]
  /\ outcome r = Return id
  /\ db (world r) = mkStore (tbl_account (db w)) (tbl_tenant (db w) ++ [row])
                      (tbl_pending (db w))
  /\ self (world r) = with_tenants (Dict.set id tenant) (self w)
  /\ Dict.get id (tenants (self (world r))) = Some tenant.
Proof.
  intros Howner Hlive Hclash. cbn zeta. unfold tenant_clash in Hclash.
  unfold add_tenant, bind, get_self, try_except, session_commit. cbn.
  rewrite Hlive.
  destruct tenant_id as [t|]; cbn in *; rewrite Hclash; cbn;
    rewrite Howner; cbn; repeat split; apply get_set_same.
Qed.

(** X6: when the owner is registered, the id is not live and the table takes
    the row, [add_tenant] commits the row, then writes the tenant under the
    id it returns: the id asked for, or the one the table drew.  The
    tenant's owner is the [username] of the account found under [owner]. *)
Theorem add_tenant_creates (w : World) (owner desc tenant_name : string)
  (tenant_id : option UUID) (account : Account.t) :
  Dict.get owner (accounts (self w)) = Some account ->
  in_tenants tenant_id (self w) = false ->
  tenant_clash (TblTenant.mk (assigned_id tenant_id w) tenant_name owner desc) (db w)
  = false ->
  let id := assigned_id tenant_id w in
  let row := TblTenant.mk id tenant_name owner desc in
  let tenant := Tenant.mk id tenant_name (Account.username account) desc in
  let r := add_tenant owner desc tenant_name tenant_id w in
  events r = [EvCommit [SAdd (RTenant row)]; EvMem (WSetTenant id)]
  /\ outcome r = Return id
  /\ db (world r) = mkStore (tbl_account (db w)) (tbl_tenant (db w) ++ [row])
                      (tbl_pending (db w))
  /\ self (world r) = with_tenants (Dict.set id tenant) (self w)
  /\ Dict.get id (tenants (self (world r))) = Some tenant.
Proof. exact (@add_tenant_run w owner desc tenant_name tenant_id account). Qed.

Lemma add_tenant_creates_witness :
  outcome (add_tenant "bar" "fourth" "net4" None populated) = Return 1000%N
  /\ Dict.get 1000%N
       (tenants (self (world (add_tenant "bar" "fourth" "net4" None populated))))
     = Some (Tenant.mk 1000%N "net4" "bar" "fourth").
Proof.
  destruct (add_tenant_creates populated "bar" "fourth" "net4" None
              (account := Account.mk "bar" "bar" "Bar" "" "bar@empower.net" "user")
              eq_refl eq_refl eq_refl) as (_ & Hout & _ & _ & Hget).
  split; [exact Hout | exact Hget].
Defined.

(** X7: adding a tenant under an id the registry does not hold and removing it
    again gives back the tables, the accounts and the tenants as they were
    (the components have been swept for the id in passing). *)
Theorem add_then_remove_tenant (w : World) (owner desc tenant_name : string)
  (tenant_id : option UUID) (account : Account.t) :
  Dict.get owner (accounts (self w)) = Some account ->
  Dict.mem (assigned_id tenant_id w) (tenants (self w)) = false ->
  tenant_clash (TblTenant.mk (assigned_id tenant_id w) tenant_name owner desc) (db w)
  = false ->
  components_ok (components (self w)) ->
  let id := assigned_id tenant_id w in
  let r := (id' <- add_tenant owner desc tenant_name tenant_id;; remove_tenant id') w in
  outcome r = Return tt
  /\ db (world r) = db w
  /\ accounts (self (world r)) = accounts (self w)
  /\ tenants (self (world r)) = tenants (self w)
  /\ components (self (world r)) = sweep_all id (components (self w)).
Proof.
  intros Howner Hfresh Hclash Hok. cbn zeta.
  assert (Hlive : in_tenants tenant_id (self w) = false)
    by (destruct tenant_id; [exact Hfresh | reflexivity]).
  destruct (add_tenant_run w owner desc tenant_name tenant_id Howner Hlive Hclash)
    as (Hev & Hout & Hdb & Hself & Hget).
  set (id := assigned_id tenant_id w) in *.
  set (w1 := world (add_tenant owner desc tenant_name tenant_id w)) in *.
  assert (Hrow : has_tenant_row id (db w) = false).
  { unfold has_tenant_row. revert Hclash. unfold tenant_clash. cbn.
    apply existsb_weaken. intros x ->. reflexivity. }
  destruct (remove_tenant_run id w1) as (row & _ & E).
  - unfold Dict.mem. now rewrite Hget.
  - rewrite Hdb. unfold has_tenant_row. cbn. rewrite existsb_app. cbn.
    rewrite N.eqb_refl. now rewrite orb_true_r.
  - rewrite Hself. exact Hok.
  - unfold bind. fold w1. rewrite Hout, E. unfold prepend.
    cbn [outcome world events]. unfold after_remove_tenant.
    cbn [db self tenants accounts components].
    rewrite Hdb, Hself. unfold delete_tenant_row, with_tenants.
    cbn [db self tenants accounts components tbl_account tbl_tenant tbl_pending].
    rewrite del_set_fresh by exact Hfresh.
    rewrite (@filter_app_fresh _
               (fun x => (TblTenant.tenant_id x =? id)%N) (tbl_tenant (db w))
               (TblTenant.mk id tenant_name owner desc) Hrow (N.eqb_refl id)).
    destruct (db w). repeat split.
Qed.

Lemma add_then_remove_tenant_witness :
  tenants (self (world ((id <- add_tenant "bar" "fourth" "net4" None;;
                         remove_tenant id) populated)))
  = tenants (self populated)
  /\ db (world ((id <- add_tenant "bar" "fourth" "net4" None;;
                 remove_tenant id) populated))
     = db populated.
Proof.
  destruct (add_then_remove_tenant populated "bar" "fourth" "net4" None
              (account := Account.mk "bar" "bar" "Bar" "" "bar@empower.net" "user")
              eq_refl eq_refl eq_refl populated_components_ok)
    as (_ & Hdb & _ & Hts & _).
  split; [exact Hts | exact Hdb].
Defined.

(** ** Pending requests *)

(** X10: [request_tenant] works on the table of pending requests only: however
    it ends, the registry, the accounts table and the tenants table are as
    they were, and no step of it writes to the registry. *)
Theorem request_tenant_store_only (w : World) (owner desc tenant_name : string)
  (tenant_id : option UUID) :
  let r := request_tenant owner desc tenant_name tenant_id w in
  self (world r) = self w
  /\ tbl_account (db (world r)) = tbl_account (db w)
  /\ tbl_tenant (db (world r)) = tbl_tenant (db w)
  /\ filter is_mem_write (events r) = [].
Proof.
  cbn zeta.
  unfold request_tenant, load_pending_tenant, bind, get_self, get_db, try_except,
    session_commit. cbn.
  destruct (in_tenants tenant_id (self w)); [now cbn|].
  destruct tenant_id as [t|]; cbn;
    repeat match goal with
      | |- context [find ?g ?l] => destruct (find g l); cbn
      | |- context [existsb ?g ?l] => destruct (existsb g l); cbn
      end; repeat split.
Qed.

(** X11: a request whose id is not live and that the table takes is stored and
    its id returned; [load_pending_tenant] then finds it; [reject_tenant]
    deletes it again and the tables are as before the request. *)
Theorem request_then_reject (w : World) (owner desc tenant_name : string)
  (tenant_id : option UUID) :
  in_tenants tenant_id (self w) = false ->
  pending_clash (TblPendingTenant.mk (assigned_id tenant_id w) owner tenant_name desc)
    (db w) = false ->
  let id := assigned_id tenant_id w in
  let row := TblPendingTenant.mk id owner tenant_name desc in
  let r := request_tenant owner desc tenant_name tenant_id w in
  events r = [EvCommit [SAdd (RPending row)]]
  /\ outcome r = Return id
  /\ tbl_pending (db (world r)) = tbl_pending (db w) ++ [row]
  /\ outcome (load_pending_tenant (Some id) (world r)) = Return (Some row)
  /\ outcome (reject_tenant id (world r)) = Return tt
  /\ db (world (reject_tenant id (world r))) = db w
  /\ self (world (reject_tenant id (world r))) = self w.
Proof.
  intros Hlive Hclash. cbn zeta. unfold pending_clash in Hclash.
  assert (Hid : existsb (fun x => (TblPendingTenant.tenant_id x
                                   =? assigned_id tenant_id w)%N)
                  (tbl_pending (db w)) = false).
  { revert Hclash. apply existsb_weaken. cbn. intros x ->. reflexivity. }
  pose proof (find_existsb _ _ Hid) as Hnone.
  pose proof (@find_app_fresh _
                (fun x => (TblPendingTenant.tenant_id x =? assigned_id tenant_id w)%N)
                (tbl_pending (db w))
                (TblPendingTenant.mk (assigned_id tenant_id w) owner tenant_name desc)
                Hid (N.eqb_refl _)) as Hsome.
  pose proof (@filter_app_fresh _
                (fun x => (TblPendingTenant.tenant_id x =? assigned_id tenant_id w)%N)
                (tbl_pending (db w))
                (TblPendingTenant.mk (assigned_id tenant_id w) owner tenant_name desc)
                Hid (N.eqb_refl _)) as Hback.
  assert (E : request_tenant owner desc tenant_name tenant_id w
              = mkRun [EvCommit [SAdd (RPending
                         (TblPendingTenant.mk (assigned_id tenant_id w) owner
                            tenant_name desc))]]
                  (mkWorld
                     (mkStore (tbl_account (db w)) (tbl_tenant (db w))
                        (tbl_pending (db w)
                         ++ [TblPendingTenant.mk (assigned_id tenant_id w) owner
                               tenant_name desc]))
                     (self w) (uuid_source w)
                     (match tenant_id with
                      | Some _ => uuid_drawn w
                      | None => S (uuid_drawn w)
                      end))
                  (Return (assigned_id tenant_id w))).
  { unfold request_tenant, load_pending_tenant, bind, get_self, get_db,
      try_except, session_commit.
    cbn. rewrite Hlive.
    destruct tenant_id as [t|]; cbn in *; rewrite ?Hnone; cbn; rewrite Hclash;
      reflexivity. }
  rewrite E. cbn [events outcome world db tbl_pending self].
  split; [reflexivity|]. split; [reflexivity|]. split; [reflexivity|].
  unfold reject_tenant, load_pending_tenant, bind, get_db, session_commit.
  cbn. rewrite Hsome. cbn. rewrite Hback. destruct (db w). repeat split.
Qed.

Lemma request_then_reject_witness :
  outcome (request_tenant "foo" "wanted" "net8" (Some 8%N) populated) = Return 8%N
  /\ db (world (reject_tenant 8%N
                  (world (request_tenant "foo" "wanted" "net8" (Some 8%N) populated))))
     = db populated.
Proof.
  destruct (request_then_reject populated "foo" "wanted" "net8" (Some 8%N)
              eq_refl eq_refl) as (_ & Hout & _ & _ & _ & Hdb & _).
  split; [exact Hout | exact Hdb].
Defined.

(** ** Components: registering *)

(** X13: [register] refuses a name that is taken with "already registered", a
    [DuplicateEntity], and lets an exception of the constructor through;
    either way nothing is stored and nothing has changed. *)
Theorem register_refuses {P : Type} (w : World) (name : string)
  (init_method : P -> Outcome Component) (params : P) :
  (Dict.mem name (components (self w)) = true ->
   register name init_method params w
   = mkRun [] w (Raise (ValueError (Already_registered name))))
  /\ (forall e,
        Dict.mem name (components (self w)) = false ->
        init_method params = Raise e ->
        register name init_method params w = mkRun [] w (Raise e)).
Proof.
  split.
  - intros Hmem. unfold register, bind, get_self. cbn. now rewrite Hmem.
  - intros e Hmem Hinit. unfold register, bind, get_self. cbn.
    now rewrite Hmem, Hinit.
Qed.

Lemma register_refuses_witness :
  register "worker" (fun _ : unit => Return an_app) tt populated
  = mkRun [] populated (Raise (ValueError (Already_registered "worker")))
  /\ register "broken" (fun _ : unit => Raise (PluginError "init")) tt populated
     = mkRun [] populated (Raise (PluginError "init")).
Proof.
  destruct (register_refuses populated "worker" (fun _ : unit => Return an_app) tt)
    as [Htaken _].
  destruct (register_refuses populated "broken"
              (fun _ : unit => @Raise Component (PluginError "init")) tt)
    as [_ Hraise].
  split; [now apply Htaken | now apply Hraise].
Defined.

(** [register] when everything is in place. *)
Lemma register_run {P : Type} (w : World) (name : string)
  (init_method : P -> Outcome Component) (params : P) (c : Component) :
  Dict.mem name (components (self w)) = false ->
  init_method params = Return c ->
  (forall f, start c = Some f -> snd (f (obj (set_path c name))) = None) ->
  let r := register name init_method params w in
  outcome r = Return tt
  /\ components (self (world r)) = components (self w) ++ [(name, registered c name)]
  /\ events r
     = [EvMem (WSetComponent name); EvMem (WSetPath name)]
       ++ match start c with Some _ => [EvHook name HStart] | None => [] end
  /\ db (world r) = db w
  /\ accounts (self (world r)) = accounts (self w)
  /\ tenants (self (world r)) = tenants (self w).
Proof.
  intros Hfree Hinit Hstart. cbn zeta.
  rewrite <- (@set_fresh _ _ _ name (registered c name) _ Hfree).
  unfold registered.
  unfold register, bind, get_self. cbn. rewrite Hfree, Hinit.
  unfold call_method, the_component, bind, get_self.
  repeat (cbn; rewrite ?get_set_same, ?set_set).
  destruct (start c) as [f|] eqn:Hf.
  - specialize (Hstart f eq_refl). unfold set_path in Hstart. cbn in Hstart.
    repeat (cbn; rewrite ?get_set_same, ?set_set, ?Hf, ?Hstart).
    unfold prepend, with_components, set_path, set_obj. cbn.
    rewrite ?set_set. repeat split.
  - unfold prepend, with_components, set_path, set_obj. cbn.
    rewrite ?set_set. repeat split.
Qed.

(** X14: on a free name, with a constructor that returns and a [start] (if the
    instance has one) that returns, [register] appends the instance to the
    registry under the name, stamped with the name before [start] runs;
    [start] is called exactly once when there is one and never otherwise;
    the tables are not touched. *)
Theorem register_stores {P : Type} (w : World) (name : string)
  (init_method : P -> Outcome Component) (params : P) (c : Component) :
  Dict.mem name (components (self w)) = false ->
  init_method params = Return c ->
  (forall f, start c = Some f -> snd (f (obj (set_path c name))) = None) ->
  let r := register name init_method params w in
  outcome r = Return tt
  /\ components (self (world r)) = components (self w) ++ [(name, registered c name)]
  /\ events r
     = [EvMem (WSetComponent name); EvMem (WSetPath name)]
       ++ match start c with Some _ => [EvHook name HStart] | None => [] end
  /\ db (world r) = db w
  /\ accounts (self (world r)) = accounts (self w)
  /\ tenants (self (world r)) = tenants (self w).
Proof. exact (@register_run P w name init_method params c). Qed.

Lemma register_stores_witness :
  outcome (register "app" (fun _ : unit => Return an_app) tt populated) = Return tt
  /\ Dict.keys (components (self (world (register "app"
                                           (fun _ : unit => Return an_app) tt
                                           populated))))
     = ["worker"; "server"; "app"].
Proof.
  destruct (register_stores populated "app" (fun _ : unit => Return an_app) tt
              (c := an_app) eq_refl eq_refl) as (Hout & Hcs & _).
  - intros f Hf. discriminate Hf.
  - split; [exact Hout|]. rewrite Hcs, populated_components. reflexivity.
Defined.

(** ** Components: unregistering *)

Lemma del_set {K V} `{EqKey K} (k : K) (v : V) (d : Dict.t K V) :
  Dict.del k (Dict.set k v d) = Dict.del k d.
Proof.
  unfold Dict.del. induction d as [|[k' v'] d IH]; cbn.
  - now rewrite keq_refl.
  - destruct (keq k k') eqn:E; cbn; rewrite ?keq_refl, ?E; cbn; congruence.
Qed.

Lemma keys_set {K V} `{EqKey K} (k : K) (v : V) (d : Dict.t K V) :
  Dict.mem k d = true -> Dict.keys (Dict.set k v d) = Dict.keys d.
Proof.
  unfold Dict.mem, Dict.keys. induction d as [|[k' v'] d IH]; cbn; [discriminate|].
  destruct (keq k k') eqn:E; cbn.
  - intros _. apply keq_eq in E. now subst.
  - intros Hmem. now rewrite IH.
Qed.

Lemma filter_all {A} (l : list A) : filter (fun _ => true) l = l.
Proof. induction l; cbn; congruence. Qed.

Lemma filter_none {A} (l : list A) : filter (fun _ => false) l = [].
Proof. induction l; cbn; congruence. Qed.

Lemma the_component_run name w c :
  Dict.get name (components (self w)) = Some c ->
  the_component name w = mkRun [] w (Return c).
Proof.
  intros Hget. unfold the_component, bind, get_self. cbn. now rewrite Hget.
Qed.

(** The first half of [unregister]: a worker loses its modules, one call
    of its own [remove_module] per module, in the order of [modules]. *)
Lemma teardown_run name w c :
  Dict.get name (components (self w)) = Some c ->
  removable c ->
  (if is_ModuleWorker c
   then
     c' <- the_component name;;
     match modules (obj c') with
     | None => raise (AttributeError "modules")
     | Some ms =>
         for_each (map Module_.module_id (Dict.values ms)) (fun remove =>
           call_method name "remove_module" (HRemoveModule remove)
             (fun c0 => option_map (fun f => f remove) (remove_module c0)))
     end
   else ret tt) w
  = mkRun (teardown_events name c)
      (set_components (Dict.set name (torn_down c) (components (self w))) w)
      (Return tt).
Proof.
  intros Hget [_ Hworker]. unfold teardown_events, torn_down.
  destruct (is_ModuleWorker c).
  - destruct (Hworker eq_refl) as (ms & f & Hms & [Hwf Hkey] & Hrm & Hf).
    erewrite bind_Return by (apply the_component_run; exact Hget).
    rewrite prepend_nil, Hms.
    assert (Hids : map Module_.module_id (Dict.values ms)
                   = selected Module_.module_id (fun _ => true) ms)
      by (unfold selected; now rewrite filter_all).
    rewrite (@remove_modules_loop name f _ Hf) with (c := c) (ms := ms);
      try assumption.
    + rewrite Hids, (del_selected _ _ Hwf Hkey).
      cbn [negb]. now rewrite filter_none.
    + rewrite Hids. now apply selected_NoDup.
    + intros id Hin. rewrite Hids in Hin.
      exact (@selected_mem _ _ _ Module_.module_id _ _ id Hkey Hin).
  - cbn. rewrite set_get_same by exact Hget. now rewrite set_components_same.
Qed.

(** [unregister] when every hook returns. *)
Lemma unregister_run (w : World) (name : string) (c : Component)
  (h : Method) :
  Dict.get name (components (self w)) = Some c ->
  removable c ->
  remove_handlers c = Some h ->
  (forall o, snd (h o) = None) ->
  let r := unregister name w in
  outcome r = Return tt
  /\ events r = teardown_events name c
                ++ [EvHook name HRemoveHandlers; EvMem (WDelComponent name)]
  /\ components (self (world r)) = Dict.del name (components (self w))
  /\ db (world r) = db w
  /\ accounts (self (world r)) = accounts (self w)
  /\ tenants (self (world r)) = tenants (self w).
Proof.
  intros Hget Hrem Hh Hret. cbn zeta.
  pose proof Hrem as [Hclass _].
  unfold unregister.
  erewrite bind_Return by (apply the_component_run; exact Hget).
  rewrite prepend_nil.
  replace (negb (is_ModuleWorker c) && negb (is_EmpowerApp c)) with false
    by (rewrite <- negb_orb, Hclass; reflexivity).
  erewrite bind_Return by (apply teardown_run; assumption).
  set (w1 := set_components _ w).
  assert (Hget1 : Dict.get name (components (self w1)) = Some (torn_down c))
    by (cbn; apply get_set_same).
  assert (Hh1 : remove_handlers (torn_down c) = Some h).
  { unfold torn_down. destruct (is_ModuleWorker c); [|exact Hh].
    destruct (modules (obj c)); exact Hh. }
  erewrite bind_Return; cycle 1.
  { eapply call_method_run; [exact Hget1 | exact Hh1 | ].
    rewrite (surjective_pairing (h (obj (torn_down c)))) at 1.
    now rewrite Hret. }
  unfold bind, get_self, prepend. subst w1.
  cbn [events outcome world self components set_components db accounts tenants].
  rewrite set_set, mem_set_same.
  cbn [events outcome world self components db accounts tenants mem_write
         with_components app].
  unfold set_components.
  cbn [self components db accounts tenants].
  rewrite del_set. repeat split.
Qed.

(** X15: [unregister] of a worker or an application whose hooks return: the
    modules of a worker are removed one by one, then [remove_handlers] is
    called, then the entry is deleted, in this order; an application gets
    no [remove_module] call; the tables are not touched. *)
Theorem unregister_tears_down (w : World) (name : string) (c : Component)
  (h : Method) :
  Dict.get name (components (self w)) = Some c ->
  removable c ->
  remove_handlers c = Some h ->
  (forall o, snd (h o) = None) ->
  let r := unregister name w in
  outcome r = Return tt
  /\ events r = teardown_events name c
                ++ [EvHook name HRemoveHandlers; EvMem (WDelComponent name)]
  /\ components (self (world r)) = Dict.del name (components (self w))
  /\ db (world r) = db w
  /\ accounts (self (world r)) = accounts (self w)
  /\ tenants (self (world r)) = tenants (self w).
Proof. exact (@unregister_run w name c h). Qed.

Lemma populated_worker_removable : removable (set_path a_worker "worker").
Proof.
  split; [reflexivity|]. intros _.
  exists [(10%N, Module_.mk 10%N 1%N); (11%N, Module_.mk 11%N 3%N)],
    ModuleWorker_remove_module.
  split; [reflexivity|]. split; [|split; [reflexivity|]].
  - split.
    + unfold Dict.wf. cbn. repeat constructor; cbn; intuition discriminate.
    + intros k m [[= <- <-] | [[= <- <-] | []]]; reflexivity.
  - apply ModuleWorker_remove_module_ok.
Qed.

Lemma unregister_tears_down_witness :
  events (unregister "worker" populated)
  = [EvHook "worker" (HRemoveModule 10%N); EvHook "worker" (HRemoveModule 11%N);
     EvHook "worker" HRemoveHandlers; EvMem (WDelComponent "worker")]
  /\ Dict.keys (components (self (world (unregister "worker" populated))))
     = ["server"].
Proof.
  destruct (unregister_tears_down populated "worker"
              (c := set_path a_worker "worker") (h := fun o => (o, None))
              eq_refl populated_worker_removable eq_refl (fun _ => eq_refl))
    as (_ & Hev & Hcs & _).
  split; [exact Hev|]. rewrite Hcs, populated_components. reflexivity.
Defined.

(** X16: when [remove_handlers] raises, [unregister] stops there: the modules
    of a worker have been removed, the exception reaches the caller, and
    the component is still registered under its name. *)
Theorem unregister_handlers_raise (w : World) (name : string) (c : Component)
  (h : Method) (e : Exn) :
  Dict.get name (components (self w)) = Some c ->
  removable c ->
  remove_handlers c = Some h ->
  (forall o, snd (h o) = Some e) ->
  let r := unregister name w in
  outcome r = Raise e
  /\ events r = teardown_events name c ++ [EvHook name HRemoveHandlers]
  /\ Dict.keys (components (self (world r))) = Dict.keys (components (self w))
  /\ Dict.get name (components (self (world r)))
     = Some (set_obj c (fst (h (obj (torn_down c)))))
  /\ db (world r) = db w.
Proof.
  intros Hget Hrem Hh Hraise. cbn zeta.
  pose proof Hrem as [Hclass _].
  unfold unregister.
  erewrite bind_Return by (apply the_component_run; exact Hget).
  rewrite prepend_nil.
  replace (negb (is_ModuleWorker c) && negb (is_EmpowerApp c)) with false
    by (rewrite <- negb_orb, Hclass; reflexivity).
  erewrite bind_Return by (apply teardown_run; assumption).
  set (w1 := set_components _ w).
  assert (Hget1 : Dict.get name (components (self w1)) = Some (torn_down c))
    by (cbn; apply get_set_same).
  assert (Hh1 : remove_handlers (torn_down c) = Some h).
  { unfold torn_down. destruct (is_ModuleWorker c); [|exact Hh].
    destruct (modules (obj c)); exact Hh. }
  assert (E : call_method name "remove_handlers" HRemoveHandlers remove_handlers w1
              = mkRun [EvHook name HRemoveHandlers]
                  (set_components
                     (Dict.set name
                        (set_obj (torn_down c) (fst (h (obj (torn_down c)))))
                        (components (self w1))) w1)
                  (Raise e)).
  { unfold call_method.
    erewrite bind_Return by (apply the_component_run; exact Hget1).
    rewrite prepend_nil, Hh1. unfold bind, emit, update_self, prepend.
    cbn. now rewrite Hraise. }
  unfold bind. rewrite E. unfold prepend. subst w1. unfold set_components.
  cbn [events outcome world self components db accounts tenants app].
  rewrite set_set, get_set_same.
  repeat split.
  - apply keys_set. unfold Dict.mem. now rewrite Hget.
  - unfold torn_down. destruct (is_ModuleWorker c); [|reflexivity].
    destruct (modules (obj c)); reflexivity.
Qed.

Lemma unregister_handlers_raise_witness :
  outcome (unregister "stubborn" (set_components [("stubborn", a_stubborn)] populated))
  = Raise (PluginError "remove_handlers")
  /\ Dict.keys (components (self (world (unregister "stubborn"
                  (set_components [("stubborn", a_stubborn)] populated)))))
     = ["stubborn"].
Proof.
  destruct (unregister_handlers_raise
              (set_components [("stubborn", a_stubborn)] populated) "stubborn"
              (c := a_stubborn)
              (h := fun o => (o, Some (PluginError "remove_handlers")))
              (e := PluginError "remove_handlers") eq_refl)
    as (Hout & _ & Hkeys & _).
  - split; [reflexivity | discriminate].
  - reflexivity.
  - intros o. reflexivity.
  - split; [exact Hout | exact Hkeys].
Defined.

(** X17: [unregister] of a name that is not registered is a [KeyError] on the
    name, with nothing changed. *)
Theorem unregister_unknown (w : World) (name : string) :
  Dict.mem name (components (self w)) = false ->
  unregister name w = mkRun [] w (Raise (KeyError (KStr name)))
  /\ error_kind (KeyError (KStr name)) = Some NotFound.
Proof.
  intros Hmem. split; [|reflexivity]. apply not_mem_get in Hmem.
  unfold unregister, the_component, bind, get_self. cbn. now rewrite Hmem.
Qed.

Lemma unregister_unknown_witness :
  unregister "nothing" populated
  = mkRun [] populated (Raise (KeyError (KStr "nothing"))).
Proof. apply (unregister_unknown populated "nothing"). reflexivity. Defined.

Lemma registered_class (c : Component) name :
  is_ModuleWorker (registered c name) = is_ModuleWorker c
  /\ is_EmpowerApp (registered c name) = is_EmpowerApp c
  /\ remove_handlers (registered c name) = remove_handlers c.
Proof. unfold registered. destruct (start c); repeat split. Qed.

(** X18: registering a component under a free name and unregistering it again
    gives back the registry as it was, whatever the hooks did to the
    component in between, and leaves tables, accounts and tenants alone. *)
Theorem register_then_unregister {P : Type} (w : World) (name : string)
  (init_method : P -> Outcome Component) (params : P) (c : Component) (h : Method) :
  Dict.mem name (components (self w)) = false ->
  init_method params = Return c ->
  (forall f, start c = Some f -> snd (f (obj (set_path c name))) = None) ->
  removable (registered c name) ->
  remove_handlers c = Some h ->
  (forall o, snd (h o) = None) ->
  let r := (register name init_method params;; unregister name) w in
  outcome r = Return tt
  /\ components (self (world r)) = components (self w)
  /\ db (world r) = db w
  /\ accounts (self (world r)) = accounts (self w)
  /\ tenants (self (world r)) = tenants (self w).
Proof.
  intros Hfree Hinit Hstart Hrem Hh Hret. cbn zeta.
  destruct (register_run w name init_method params Hfree Hinit Hstart)
    as (Hout & Hcs & _ & Hdb & Hacc & Hts).
  set (w1 := world (register name init_method params w)) in *.
  destruct (@unregister_run w1 name (registered c name) h)
    as (Hout' & _ & Hcs' & Hdb' & Hacc' & Hts'); try assumption.
  - rewrite Hcs, <- (@set_fresh _ _ _ name (registered c name) _ Hfree).
    apply get_set_same.
  - now rewrite (proj2 (proj2 (registered_class c name))).
  - unfold bind. fold w1. rewrite Hout. unfold prepend.
    cbn [outcome world]. rewrite Hout', Hcs', Hdb', Hacc', Hts'.
    repeat split; try assumption.
    rewrite Hcs, <- (@set_fresh _ _ _ name (registered c name) _ Hfree).
    now apply del_set_fresh.
Qed.

Lemma register_then_unregister_witness :
  components (self (world ((register "app" (fun _ : unit => Return an_app) tt;;
                            unregister "app") populated)))
  = components (self populated).
Proof.
  destruct (register_then_unregister populated "app"
              (fun _ : unit => Return an_app) tt
              (c := an_app) (h := fun o => (o, None)) eq_refl eq_refl)
    as (_ & Hcs & _).
  - intros f Hf. discriminate Hf.
  - split; [reflexivity | discriminate].
  - reflexivity.
  - intros o. reflexivity.
  - exact Hcs.
Defined.

(** ** What only touches the components *)

Lemma components_only_bind {A B} (m : M A) (k : A -> M B) :
  components_only m -> (forall a, components_only (k a)) -> components_only (bind m k).
Proof.
  intros Hm Hk w. unfold bind. destruct (Hm w) as (Hd & Ha & Ht).
  destruct (outcome (m w)) eqn:E; cbn.
  - destruct (Hk a (world (m w))) as (Hd' & Ha' & Ht').
    now rewrite Hd', Ha', Ht'.
  - auto.
Qed.

Lemma components_only_ret {A} (a : A) : components_only (ret a).
Proof. now intros w. Qed.

Lemma components_only_raise {A} (e : Exn) : components_only (@raise A e).
Proof. now intros w. Qed.

Lemma components_only_get_self : components_only get_self.
Proof. now intros w. Qed.

Lemma components_only_emit e : components_only (emit e).
Proof. now intros w. Qed.

Lemma components_only_update_self f : components_only (update_self (with_components f)).
Proof. now intros w. Qed.

Lemma components_only_mem_write m f : components_only (mem_write m (with_components f)).
Proof. now intros w. Qed.

Lemma components_only_for_each {X} (xs : list X) (body : X -> M unit) :
  (forall x, components_only (body x)) -> components_only (for_each xs body).
Proof.
  intros Hbody. induction xs as [|x xs IH]; cbn.
  - apply components_only_ret.
  - apply components_only_bind; auto.
Qed.

Ltac walk_components :=
  repeat first
    [ apply components_only_bind; [|intros ?]
    | apply components_only_ret
    | apply components_only_raise
    | apply components_only_get_self
    | apply components_only_emit
    | apply components_only_update_self
    | apply components_only_mem_write
    | apply components_only_for_each; intros ?
    | match goal with
      | |- components_only (if ?b then _ else _) => destruct b
      | |- components_only (match ?x with _ => _ end) => destruct x
      end ].

Lemma components_only_call_method name attr h sel :
  components_only (call_method name attr h sel).
Proof. unfold call_method, the_component. walk_components. Qed.

Lemma components_only_sweep t name : components_only (sweep_component t name).
Proof.
  unfold sweep_component. walk_components.
Qed.

Lemma components_only_register {P} name (init_method : P -> Outcome Component) params :
  components_only (register name init_method params).
Proof.
  unfold register, the_component. walk_components.
Qed.

Lemma components_only_unregister name : components_only (unregister name).
Proof.
  unfold unregister, the_component. walk_components.
Qed.

(** ** The registry stays in step with the tables *)

Lemma mirrors_ext w w' :
  db w' = db w -> accounts (self w') = accounts (self w) ->
  tenants (self w') = tenants (self w) ->
  mirrors w -> mirrors w'.
Proof. unfold mirrors. now intros -> -> ->. Qed.

Lemma keys_del {K V} `{EqKey K} (k : K) (d : Dict.t K V) :
  Dict.keys (Dict.del k d) = filter (fun k' => negb (keq k k')) (Dict.keys d).
Proof.
  unfold Dict.keys, Dict.del. induction d as [|[k' v'] d IH]; cbn; [reflexivity|].
  destruct (keq k k'); cbn; now rewrite IH.
Qed.

Lemma map_filter {A B} (f : A -> B) (p : B -> bool) (l : list A) :
  map f (filter (fun x => p (f x)) l) = filter p (map f l).
Proof.
  induction l as [|a l IH]; cbn; [reflexivity|].
  destruct (p (f a)); cbn; now rewrite IH.
Qed.

Lemma keys_set_fresh {K V} `{EqKey K} (k : K) (v : V) (d : Dict.t K V) :
  Dict.mem k d = false -> Dict.keys (Dict.set k v d) = Dict.keys d ++ [k].
Proof.
  intros Hmem. rewrite set_fresh by exact Hmem. unfold Dict.keys.
  now rewrite map_app.
Qed.

Lemma bind_returns {A B} (m : M A) (k : A -> M B) w b :
  outcome (bind m k w) = Return b ->
  exists a, outcome (m w) = Return a
            /\ outcome (k a (world (m w))) = Return b
            /\ world (bind m k w) = world (k a (world (m w))).
Proof.
  unfold bind. destruct (outcome (m w)) as [a|e]; cbn; [|discriminate].
  intros Hk. exists a. auto.
Qed.

Lemma preserves_for_each {X} (P : World -> Prop) (xs : list X) (body : X -> M unit) :
  (forall x, preserves P (body x)) -> preserves P (for_each xs body).
Proof.
  intros Hbody. induction xs as [|x xs IH]; intros w HP a Hret; cbn in *.
  - exact HP.
  - apply bind_returns in Hret. destruct Hret as (u & Hx & Hrest & ->).
    apply (IH _ (Hbody x w HP u Hx) a Hrest).
Qed.

(** [remove_tenant] up to the sweep of the components. *)
Lemma remove_tenant_shape t w row :
  Dict.mem t (tenants (self w)) = true ->
  find (fun r => (TblTenant.tenant_id r =? t)%N) (tbl_tenant (db w)) = Some row ->
  remove_tenant t w
  = prepend [EvMem (WDelTenant t); EvCommit [SDelete (RTenant row)]]
      (for_each (Dict.keys (components (self w))) (sweep_component t)
         (mkWorld (delete_tenant_row (TblTenant.tenant_id row) (db w))
            (with_tenants (Dict.del t) (self w))
            (uuid_source w) (uuid_drawn w))).
Proof.
  intros Hlive Hfind.
  unfold remove_tenant. unfold bind at 1. cbn. rewrite Hlive. cbn.
  rewrite Hfind. unfold bind, session_commit. cbn.
  unfold prepend. cbn. reflexivity.
Qed.

Lemma remove_tenant_preserves_mirrors t : preserves mirrors (remove_tenant t).
Proof.
  intros w [Hacc Hts] a Hret.
  destruct (Dict.mem t (tenants (self w))) eqn:Hlive.
  2:{ unfold remove_tenant, bind, get_self in Hret. cbn in Hret.
      rewrite Hlive in Hret. discriminate. }
  destruct (find (fun r => (TblTenant.tenant_id r =? t)%N) (tbl_tenant (db w)))
    as [row|] eqn:Hfind.
  2:{ unfold remove_tenant, bind, get_self, get_db in Hret. cbn in Hret.
      rewrite Hlive in Hret. cbn in Hret. rewrite Hfind in Hret. discriminate. }
  pose proof (find_some _ _ Hfind) as [_ Hid]. apply N.eqb_eq in Hid.
  rewrite (remove_tenant_shape _ _ Hlive Hfind). unfold prepend. cbn [world].
  match goal with
  | |- mirrors (world (?m ?w1)) =>
      assert (Hframe : components_only m);
      [ apply components_only_for_each; intros n; apply components_only_sweep
      | destruct (Hframe w1) as (Hd & Ha & Ht);
        apply (@mirrors_ext w1 _ Hd Ha Ht) ]
  end.
  unfold mirrors, delete_tenant_row, with_tenants.
  cbn [self db tenants accounts tbl_tenant tbl_account].
  split; [exact Hacc|].
  rewrite keys_del, Hts, Hid.
  rewrite <- (map_filter TblTenant.tenant_id (fun k' => negb (t =? k')%N)).
  f_equal. apply filter_ext. intros r. now rewrite N.eqb_sym.
Qed.

(** [remove_account] up to the cascade over the tenants. *)
Lemma remove_account_shape u w row :
  (u =? "root") = false ->
  find (fun r => TblAccount.username r =? u) (tbl_account (db w)) = Some row ->
  Dict.mem u (accounts (self w)) = true ->
  remove_account u w
  = prepend [EvCommit [SDelete (RAccount row)]; EvMem (WDelAccount u)]
      (for_each (tenants_owned_by u (tenants (self w))) remove_tenant
         (mkWorld
            (mkStore
               (filter (fun r => negb (TblAccount.username r
                                       =? TblAccount.username row))
                  (tbl_account (db w)))
               (tbl_tenant (db w)) (tbl_pending (db w)))
            (with_accounts (Dict.del u) (self w))
            (uuid_source w) (uuid_drawn w))).
Proof.
  intros Hroot Hfind Hmem.
  unfold remove_account. rewrite Hroot. unfold bind at 1. cbn. rewrite Hfind. cbn.
  unfold bind, session_commit. cbn. rewrite Hmem. cbn.
  unfold prepend. cbn. reflexivity.
Qed.

(** What it takes for [add_tenant] to return. *)
Lemma add_tenant_returns w owner desc tenant_name tenant_id id :
  outcome (add_tenant owner desc tenant_name tenant_id w) = Return id ->
  in_tenants tenant_id (self w) = false
  /\ tenant_clash (TblTenant.mk (assigned_id tenant_id w) tenant_name owner desc)
       (db w) = false
  /\ exists account, Dict.get owner (accounts (self w)) = Some account.
Proof.
  unfold tenant_clash.
  unfold add_tenant, bind, get_self, try_except, session_commit. cbn.
  destruct (in_tenants tenant_id (self w)); [discriminate|].
  destruct tenant_id as [t|]; cbn;
    match goal with
    | |- context [existsb ?g ?l] => destruct (existsb g l)
    end; cbn; try discriminate;
    destruct (Dict.get owner (accounts (self w))); cbn; try discriminate;
    eauto.
Qed.

(** X19: every operation that returns keeps the registry in step with the
    tables: if the accounts and tenants in memory were exactly the rows of
    their tables before [create_account], [remove_account], [add_tenant],
    [remove_tenant], [register] or [unregister], and the call returns, they
    are exactly the rows after it. *)
Theorem returning_operations_keep_mirror (op : Operation) (w : World) :
  mirrors w ->
  outcome (run_operation op w) = Return tt ->
  mirrors (world (run_operation op w)).
Proof.
  intros Hm Hret. pose proof Hm as [Hacc Hts].
  destruct op as [u p r n s e | u | o d n t | t | n i | n];
    cbn [run_operation] in *.
  - (* create_account *)
    unfold create_account, bind, get_self, session_commit in *. cbn in *.
    destruct (Dict.mem u (accounts (self w))) eqn:Hmem; cbn in *; [discriminate|].
    destruct (existsb _ (tbl_account (db w))); cbn in *; [discriminate|].
    split; cbn [world db self accounts tenants tbl_account tbl_tenant with_accounts].
    + rewrite keys_set_fresh by exact Hmem. now rewrite map_app, Hacc.
    + exact Hts.
  - (* remove_account *)
    destruct (u =? "root") eqn:Hroot;
      [unfold remove_account in Hret; rewrite Hroot in Hret; discriminate|].
    destruct (find (fun r => TblAccount.username r =? u) (tbl_account (db w)))
      as [row|] eqn:Hfind.
    2:{ unfold remove_account, bind, get_db in Hret. rewrite Hroot in Hret.
        cbn in Hret. rewrite Hfind in Hret. discriminate. }
    destruct (Dict.mem u (accounts (self w))) eqn:Hmem.
    2:{ unfold remove_account, bind, get_db, session_commit in Hret.
        rewrite Hroot in Hret. cbn in Hret. rewrite Hfind in Hret. cbn in Hret.
        rewrite Hmem in Hret. discriminate. }
    pose proof (find_some _ _ Hfind) as [_ Hname]. apply String.eqb_eq in Hname.
    rewrite (remove_account_shape _ _ Hroot Hfind Hmem) in *.
    unfold prepend in *. cbn [outcome world] in *.
    match goal with
    | |- mirrors (world (for_each ?ids _ ?w1)) =>
        apply (@preserves_for_each _ mirrors ids remove_tenant
                 remove_tenant_preserves_mirrors w1) with (a := tt);
        [|exact Hret]
    end.
    unfold mirrors, with_accounts.
    cbn [self db tenants accounts tbl_tenant tbl_account].
    split; [|exact Hts].
    rewrite keys_del, Hacc, Hname.
    rewrite <- (map_filter TblAccount.username (fun k' => negb (u =? k'))).
    f_equal. apply filter_ext. intros x. now rewrite String.eqb_sym.
  - (* add_tenant *)
    apply bind_returns in Hret. destruct Hret as (id & Hadd & _ & ->).
    cbn [ret world].
    destruct (add_tenant_returns _ _ _ _ _ Hadd) as (Hlive & Hclash & acc & Hown).
    destruct (add_tenant_run w o d n t Hown Hlive Hclash)
      as (_ & _ & Hdb & Hself & _).
    assert (Hfresh : Dict.mem (assigned_id t w) (tenants (self w)) = false).
    { destruct (Dict.mem (assigned_id t w) (tenants (self w))) eqn:E; [|reflexivity].
      apply mem_In_keys in E. rewrite Hts in E. apply in_map_iff in E.
      destruct E as (row & Hid & Hin).
      assert (Hex : tenant_clash (TblTenant.mk (assigned_id t w) n o d) (db w) = true).
      { apply existsb_exists. exists row. split; [assumption|].
        cbn. rewrite Hid, N.eqb_refl. reflexivity. }
      congruence. }
    unfold mirrors. rewrite Hdb, Hself.
    unfold with_tenants. cbn [self db tenants accounts tbl_tenant tbl_account].
    split; [exact Hacc|].
    rewrite keys_set_fresh by exact Hfresh. now rewrite map_app, Hts.
  - (* remove_tenant *)
    exact (@remove_tenant_preserves_mirrors t w Hm tt Hret).
  - (* register *)
    destruct (components_only_register n i tt w) as (Hd & Ha & Ht).
    exact (@mirrors_ext w _ Hd Ha Ht Hm).
  - (* unregister *)
    destruct (components_only_unregister n w) as (Hd & Ha & Ht).
    exact (@mirrors_ext w _ Hd Ha Ht Hm).
Qed.

Lemma populated_mirrors : mirrors populated.
Proof. split; vm_compute; reflexivity. Qed.

Lemma returning_operations_keep_mirror_witness :
  mirrors populated
  /\ outcome (run_operation (Remove_account "foo") populated) = Return tt
  /\ mirrors (world (run_operation (Remove_account "foo") populated)).
Proof.
  split; [exact populated_mirrors|]. split; [vm_compute; reflexivity|].
  apply (@returning_operations_keep_mirror (Remove_account "foo") populated).
  - exact populated_mirrors.
  - vm_compute. reflexivity.
Defined.

(** ** Starting the runtime *)

Lemma NoDup_app_fresh {A} (l l' : list A) (a : A) :
  NoDup (l ++ a :: l') -> ~ In a l /\ NoDup ((l ++ [a]) ++ l').
Proof.
  intros Hnd. split.
  - apply NoDup_remove_2 in Hnd. intros Hin. apply Hnd. apply in_or_app. now left.
  - now rewrite <- app_assoc.
Qed.

Lemma not_In_keys_mem {K V} `{EqKey K} (k : K) (d : Dict.t K V) :
  ~ In k (Dict.keys d) -> Dict.mem k d = false.
Proof.
  intros Hnotin. destruct (Dict.mem k d) eqn:E; [|reflexivity].
  apply mem_In_keys in E. contradiction.
Qed.

(** The loop of [__load_accounts], from any registry whose account names
    are not among the rows. *)
Lemma load_accounts_loop (rows : list TblAccount.t) : forall w,
  NoDup (Dict.keys (accounts (self w)) ++ map TblAccount.username rows) ->
  for_each rows (fun account =>
    mem_write (WSetAccount (TblAccount.username account))
      (with_accounts (Dict.set (TblAccount.username account) (Account_of account)))) w
  = mkRun (map (fun a => EvMem (WSetAccount (TblAccount.username a))) rows)
      (mkWorld (db w)
         (mkRuntime (components (self w))
            (accounts (self w)
             ++ map (fun a => (TblAccount.username a, Account_of a)) rows)
            (tenants (self w)))
         (uuid_source w) (uuid_drawn w))
      (Return tt).
Proof.
  induction rows as [|a rows IH]; intros w Hnd.
  - cbn. rewrite app_nil_r. now destruct w as [? [? ? ?] ? ?].
  - cbn [for_each map]. apply NoDup_app_fresh in Hnd. destruct Hnd as [Hfresh Hnd].
    apply not_In_keys_mem in Hfresh.
    unfold bind. cbn [mem_write outcome world events].
    rewrite IH.
    + unfold prepend, with_accounts.
      cbn [events world outcome db self components accounts tenants
             uuid_source uuid_drawn app].
      rewrite set_fresh by exact Hfresh. now rewrite <- app_assoc.
    + unfold with_accounts. cbn [self accounts].
      rewrite keys_set_fresh by exact Hfresh. exact Hnd.
Qed.

(** The loop of [__load_tenants]: with distinct ids that are not live the
    duplicate check never fires. *)
Lemma load_tenants_loop (rows : list TblTenant.t) : forall w,
  NoDup (Dict.keys (tenants (self w)) ++ map TblTenant.tenant_id rows) ->
  for_each rows (fun tenant =>
    rt <- get_self;;
    if Dict.mem (TblTenant.tenant_id tenant) (tenants rt)
    then raise (KeyError (KUuid (TblTenant.tenant_id tenant)))
    else
      mem_write (WSetTenant (TblTenant.tenant_id tenant))
        (with_tenants (Dict.set (TblTenant.tenant_id tenant)
           (Tenant.mk (TblTenant.tenant_id tenant) (TblTenant.tenant_name tenant)
              (TblTenant.owner tenant) (TblTenant.desc tenant))))) w
  = mkRun (map (fun t => EvMem (WSetTenant (TblTenant.tenant_id t))) rows)
      (mkWorld (db w)
         (mkRuntime (components (self w)) (accounts (self w))
            (tenants (self w)
             ++ map (fun t => (TblTenant.tenant_id t, Tenant_of t)) rows))
         (uuid_source w) (uuid_drawn w))
      (Return tt).
Proof.
  induction rows as [|a rows IH]; intros w Hnd.
  - cbn. rewrite app_nil_r. now destruct w as [? [? ? ?] ? ?].
  - cbn [for_each map]. apply NoDup_app_fresh in Hnd. destruct Hnd as [Hfresh Hnd].
    apply not_In_keys_mem in Hfresh.
    erewrite bind_Return; cycle 1.
    { unfold bind, get_self. cbn [outcome world events]. rewrite Hfresh.
      unfold prepend, mem_write. cbn [outcome world events app]. reflexivity. }
    rewrite IH.
    + unfold prepend, with_tenants, Tenant_of.
      cbn [events world outcome db self components accounts tenants
             uuid_source uuid_drawn app].
      rewrite set_fresh by exact Hfresh. now rewrite <- app_assoc.
    + unfold with_tenants. cbn [self tenants].
      rewrite keys_set_fresh by exact Hfresh. exact Hnd.
Qed.

Lemma generate_default_accounts_run w :
  generate_default_accounts w
  = mkRun
      (match tbl_account (db w) with
       | [] => [EvCommit [SAdd (RAccount root_account);
                          SAdd (RAccount foo_account);
                          SAdd (RAccount bar_account)]]
       | _ :: _ => []
       end)
      (mkWorld
         (mkStore (accounts_after_bootstrap (tbl_account (db w)))
            (tbl_tenant (db w)) (tbl_pending (db w)))
         (self w) (uuid_source w) (uuid_drawn w))
      (Return tt).
Proof.
  unfold generate_default_accounts, bind, get_db, session_commit. cbn.
  destruct w as [[rows ? ?] ? ? ?]. cbn. destruct rows; reflexivity.
Qed.

Lemma load_accounts_run w :
  NoDup (Dict.keys (accounts (self w))
         ++ map TblAccount.username (tbl_account (db w))) ->
  load_accounts w
  = mkRun (map (fun a => EvMem (WSetAccount (TblAccount.username a)))
             (tbl_account (db w)))
      (mkWorld (db w)
         (mkRuntime (components (self w))
            (accounts (self w)
             ++ map (fun a => (TblAccount.username a, Account_of a))
                  (tbl_account (db w)))
            (tenants (self w)))
         (uuid_source w) (uuid_drawn w))
      (Return tt).
Proof.
  intros Hnd. unfold load_accounts.
  erewrite bind_Return by reflexivity.
  rewrite load_accounts_loop by exact Hnd. apply prepend_nil.
Qed.

Lemma load_tenants_run w :
  NoDup (Dict.keys (tenants (self w))
         ++ map TblTenant.tenant_id (tbl_tenant (db w))) ->
  load_tenants w
  = mkRun (map (fun t => EvMem (WSetTenant (TblTenant.tenant_id t)))
             (tbl_tenant (db w)))
      (mkWorld (db w)
         (mkRuntime (components (self w)) (accounts (self w))
            (tenants (self w)
             ++ map (fun t => (TblTenant.tenant_id t, Tenant_of t))
                  (tbl_tenant (db w))))
         (uuid_source w) (uuid_drawn w))
      (Return tt).
Proof.
  intros Hnd. unfold load_tenants.
  erewrite bind_Return by reflexivity.
  rewrite load_tenants_loop by exact Hnd. apply prepend_nil.
Qed.

(** X20: [__init__] over tables whose keys are distinct: the default accounts
    are created when there is no account, then every account and every
    tenant is loaded, row by row and in the order of the tables; the
    runtime starts without components and in step with the tables. *)
Theorem init_loads_the_tables (w : World) :
  NoDup (map TblAccount.username (tbl_account (db w))) ->
  NoDup (map TblTenant.tenant_id (tbl_tenant (db w))) ->
  let r := init w in
  outcome r = Return tt
  /\ tbl_account (db (world r)) = accounts_after_bootstrap (tbl_account (db w))
  /\ tbl_tenant (db (world r)) = tbl_tenant (db w)
  /\ accounts (self (world r))
     = map (fun a => (TblAccount.username a, Account_of a))
         (tbl_account (db (world r)))
  /\ tenants (self (world r))
     = map (fun t => (TblTenant.tenant_id t, Tenant_of t)) (tbl_tenant (db w))
  /\ components (self (world r)) = []
  /\ mirrors (world r).
Proof.
  intros Hacc Hts. cbn zeta.
  assert (Hboot : NoDup (map TblAccount.username
                           (accounts_after_bootstrap (tbl_account (db w))))).
  { destruct (tbl_account (db w)); [|exact Hacc].
    cbn. repeat constructor; cbn; intuition discriminate. }
  unfold init.
  erewrite bind_Return by reflexivity.
  erewrite bind_Return by apply generate_default_accounts_run.
  erewrite bind_Return by (apply load_accounts_run; exact Hboot).
  rewrite load_tenants_run by exact Hts.
  unfold prepend, mirrors, Dict.keys.
  cbn [outcome world db self tbl_account tbl_tenant accounts tenants components app].
  unfold Dict.empty. cbn [app]. rewrite !map_map. repeat split.
Qed.

Lemma init_loads_the_tables_witness :
  Dict.keys (accounts (self (world (init fresh_world)))) = ["root"; "foo"; "bar"]
  /\ mirrors (world (init (mkWorld (db populated) (self fresh_world)
                             (uuid_source populated) (uuid_drawn populated))))
  /\ Dict.keys (tenants (self (world (init (mkWorld (db populated) (self fresh_world)
                             (uuid_source populated) (uuid_drawn populated))))))
     = [1%N; 2%N; 3%N].
Proof.
  split; [vm_compute; reflexivity|].
  destruct (init_loads_the_tables
              (mkWorld (db populated) (self fresh_world)
                 (uuid_source populated) (uuid_drawn populated)))
    as (_ & _ & _ & _ & Hts & _ & Hm).
  - vm_compute. repeat constructor; cbn; intuition discriminate.
  - vm_compute. repeat constructor; cbn; intuition discriminate.
  - split; [exact Hm|]. rewrite Hts. vm_compute. reflexivity.
Defined.

(** * Properties of the IBN server *)

Lemma get_set_other {K V} `{EqKey K} (k k' : K) (v : V) (d : Dict.t K V) :
  k <> k' -> Dict.get k (Dict.set k' v d) = Dict.get k d.
Proof.
  intros Hneq. apply keq_neq in Hneq.
  induction d as [|[k0 v0] d IH]; cbn.
  - now rewrite Hneq.
  - destruct (keq k' k0) eqn:E; cbn.
    + apply keq_eq in E. subst k0. now rewrite Hneq.
    + destruct (keq k k0); [reflexivity | exact IH].
Qed.

Lemma get_del_same {K V} `{EqKey K} (k : K) (d : Dict.t K V) :
  Dict.get k (Dict.del k d) = None.
Proof.
  unfold Dict.del. induction d as [|[k0 v0] d IH]; cbn; [reflexivity|].
  destruct (keq k k0) eqn:E; cbn; [exact IH | now rewrite E].
Qed.

Lemma get_del_other {K V} `{EqKey K} (k k' : K) (d : Dict.t K V) :
  k <> k' -> Dict.get k (Dict.del k' d) = Dict.get k d.
Proof.
  intros Hneq. unfold Dict.del. induction d as [|[k0 v0] d IH]; cbn; [reflexivity|].
  destruct (keq k' k0) eqn:E; cbn.
  - apply keq_eq in E. subst k0. apply keq_neq in Hneq. now rewrite Hneq.
  - destruct (keq k k0); [reflexivity | exact IH].
Qed.

Lemma NoDup_map_injective {A B} (f : A -> B) (l : list A) :
  (forall x y, f x = f y -> x = y) -> NoDup l -> NoDup (map f l).
Proof.
  intros Hinj. induction 1 as [|a l Hnotin Hnd IH]; cbn; constructor; [|exact IH].
  intros Hin. apply in_map_iff in Hin. destruct Hin as (x & Hx & Hin).
  apply Hinj in Hx. now subst.
Qed.

Module IBNPFacts.
Import IBNP.

Lemma add_tr_trs (tr : TrafficRule) (s : Server) :
  trs (server (add_tr tr s))
  = Dict.set (ssid tr) (Dict.set (tr_match tr) tr (rules_of (ssid tr) s)) (trs s).
Proof.
  unfold add_tr, rules_of, Dict.mem.
  destruct (Dict.get (ssid tr) (trs s)) as [inner|] eqn:Hget; cbn [negb].
  - rewrite Hget. destruct (connection s); reflexivity.
  - rewrite get_set_same. destruct (connection s); cbn; now rewrite set_set.
Qed.

Lemma add_tr_result (tr : TrafficRule) (s : Server) :
  calls (add_tr tr s)
  = match connection s with Some _ => [Call_add_tr tr] | None => [] end
  /\ result (add_tr tr s)
     = match connection s with
       | Some c => match conn_add_tr c tr with
                   | Some e => Raise e
                   | None => Return tt
                   end
       | None => Return tt
       end
  /\ connection (server (add_tr tr s)) = connection s.
Proof.
  unfold add_tr, Dict.mem.
  destruct (Dict.get (ssid tr) (trs s)) as [inner|] eqn:Hget; cbn [negb].
  - rewrite Hget. destruct (connection s) eqn:Hc; repeat split; exact Hc.
  - rewrite get_set_same. destruct (connection s) eqn:Hc; repeat split; exact Hc.
Qed.

Lemma lookup_after_add (tr : TrafficRule) (s : Server) :
  lookup (ssid tr) (tr_match tr) (server (add_tr tr s)) = Some tr
  /\ forall t m, (t, m) <> (ssid tr, tr_match tr) ->
                 lookup t m (server (add_tr tr s)) = lookup t m s.
Proof.
  unfold lookup. rewrite add_tr_trs. split.
  - now rewrite !get_set_same.
  - intros t m Hneq. destruct (keq t (ssid tr)) eqn:E.
    + apply keq_eq in E. subst t. rewrite get_set_same.
      rewrite get_set_other by congruence. unfold rules_of.
      now destruct (Dict.get (ssid tr) (trs s)).
    + apply keq_neq in E. now rewrite get_set_other.
Qed.

(** X21: [add_tr] stores the rule under its tenant and its match, replacing
    the rule that was there, and leaves every other rule alone; it tells
    the connection, when there is one, after the rule is stored, so the
    rule is stored even when the connection raises. *)
Theorem add_tr_stores (tr : TrafficRule) (s : Server) :
  lookup (ssid tr) (tr_match tr) (server (add_tr tr s)) = Some tr
  /\ (forall t m, (t, m) <> (ssid tr, tr_match tr) ->
                  lookup t m (server (add_tr tr s)) = lookup t m s)
  /\ calls (add_tr tr s)
     = match connection s with Some _ => [Call_add_tr tr] | None => [] end
  /\ (connection s = None -> result (add_tr tr s) = Return tt).
Proof.
  destruct (lookup_after_add tr s) as [Hsame Hother].
  destruct (add_tr_result tr s) as (Hcalls & Hres & _).
  repeat split; try assumption.
  intros Hnone. now rewrite Hres, Hnone.
Qed.

Lemma add_tr_stores_witness :
  lookup (VUuid 1%N) (VStr "dl_vlan=3") (server (add_tr a_rule (new_server 4444%N)))
  = Some a_rule
  /\ result (add_tr a_rule (new_server 4444%N)) = Return tt.
Proof.
  destruct (add_tr_stores a_rule (new_server 4444%N)) as (Hsame & _ & _ & Hres).
  split; [exact Hsame | now apply Hres].
Defined.

(** X22: [remove_tr] deletes only when the match is itself a key of [trs],
    the dictionary keyed by tenant: otherwise no rule is removed, the rule
    asked for included, and the removal is still forwarded to the
    connection when there is one. *)
Theorem remove_tr_guard (tenant_id match_ : Value) (s : Server) :
  Dict.mem match_ (trs s) = false ->
  let r := remove_tr tenant_id match_ s in
  server r = s
  /\ lookup tenant_id match_ (server r) = lookup tenant_id match_ s
  /\ calls r = match connection s with
               | Some _ => [Call_remove_tr tenant_id match_]
               | None => []
               end
  /\ (connection s = None -> result r = Return tt).
Proof.
  intros Hguard. cbn zeta. unfold remove_tr. rewrite Hguard.
  destruct (connection s); repeat split. discriminate.
Qed.

Lemma remove_tr_guard_witness :
  lookup (VUuid 1%N) (VStr "dl_vlan=3")
    (server (remove_tr (VUuid 1%N) (VStr "dl_vlan=3")
               (server (add_tr a_rule (new_server 4444%N)))))
  = Some a_rule.
Proof.
  destruct (remove_tr_guard (VUuid 1%N) (VStr "dl_vlan=3")
              (server (add_tr a_rule (new_server 4444%N))) eq_refl)
    as (Hsame & _).
  rewrite Hsame. reflexivity.
Defined.

(** X23: when the match is a key of [trs], [remove_tr] deletes the rule of the
    tenant under that match and no other rule; a tenant without rules, or
    without a rule for the match, is a [KeyError] with nothing changed and
    nothing forwarded. *)
Theorem remove_tr_deletes (tenant_id match_ : Value) (s : Server) :
  Dict.mem match_ (trs s) = true ->
  let r := remove_tr tenant_id match_ s in
  (lookup tenant_id match_ s <> None ->
   lookup tenant_id match_ (server r) = None
   /\ (forall t m, (t, m) <> (tenant_id, match_) ->
                   lookup t m (server r) = lookup t m s)
   /\ (connection s = None -> result r = Return tt))
  /\ (Dict.mem tenant_id (trs s) = false ->
      r = mkRes [] s (Raise (KeyError (key_of tenant_id))))
  /\ (Dict.mem tenant_id (trs s) = true ->
      lookup tenant_id match_ s = None ->
      r = mkRes [] s (Raise (KeyError (key_of match_)))).
Proof.
  intros Hguard. cbn zeta. unfold remove_tr, lookup, Dict.mem in *.
  rewrite Hguard. clear Hguard.
  destruct (Dict.get tenant_id (trs s)) as [inner|] eqn:Hget.
  - split; [|split; [discriminate|]].
    + intros Hsome. destruct (Dict.get match_ inner) as [found|] eqn:Hm;
        [|contradiction].
      assert (Htrs : trs (server
                 match connection s with
                 | Some c =>
                     mkRes [Call_remove_tr tenant_id match_]
                       (set_trs (Dict.set tenant_id (Dict.del match_ inner) (trs s)) s)
                       match conn_remove_tr c tenant_id match_ with
                       | Some e => Raise e
                       | None => Return tt
                       end
                 | None =>
                     mkRes []
                       (set_trs (Dict.set tenant_id (Dict.del match_ inner) (trs s)) s)
                       (Return tt)
                 end) = Dict.set tenant_id (Dict.del match_ inner) (trs s))
        by (destruct (connection s); reflexivity).
      rewrite Htrs, get_set_same. split; [apply get_del_same|]. split.
      * intros t0 m0 Hneq. destruct (keq t0 tenant_id) eqn:E.
        -- apply keq_eq in E. subst t0. rewrite get_set_same, Hget.
           apply get_del_other. congruence.
        -- apply keq_neq in E. now rewrite get_set_other.
      * intros ->. reflexivity.
    + intros _ Hnone. now rewrite Hnone.
  - split; [intros H; now contradiction H|]. split; [reflexivity | discriminate].
Qed.

Lemma remove_tr_deletes_witness :
  lookup (VStr "guest") (VStr "guest")
    (server (remove_tr (VStr "guest") (VStr "guest")
               (server (add_tr (mkTrafficRule (VStr "guest") (VStr "guest") "l" "d")
                          (new_server 4444%N)))))
  = None.
Proof.
  destruct (remove_tr_deletes (VStr "guest") (VStr "guest")
              (server (add_tr (mkTrafficRule (VStr "guest") (VStr "guest") "l" "d")
                         (new_server 4444%N))) eq_refl)
    as (Hdel & _).
  destruct Hdel as (Hnone & _); [discriminate | exact Hnone].
Defined.

(** X24: every read of [seq] counts: [n] reads in a row return the [n] numbers
    after the current one, in order, so no number comes twice. *)
Theorem seq_counts (n : nat) (s : Server) :
  reads n s = map (fun i => (seq_ s + N.of_nat i)%N) (List.seq 1 n)
  /\ NoDup (reads n s).
Proof.
  assert (E : forall n s,
             reads n s = map (fun i => (seq_ s + N.of_nat i)%N) (List.seq 1 n)).
  { clear. induction n as [|n IH]; intros s; [reflexivity|].
    cbn [reads List.seq map]. rewrite IH. cbn [seq fst snd seq_]. f_equal.
    rewrite <- (seq_shift n 1), map_map. apply map_ext. intros i.
    rewrite Nnat.Nat2N.inj_succ. lia. }
  split; [apply E|]. rewrite E.
  apply NoDup_map_injective; [|apply seq_NoDup].
  intros i j Hij. apply Nnat.Nat2N.inj. lia.
Qed.

(** X25: loading rows whose tenant and match pairs are all different, into a
    server without connection: every [add_tr] returns, nothing is
    forwarded, every row is then found under its tenant and match, and
    the rules of other pairs are as before. *)
Theorem load_trs_finds_every_row (rows : list TblTrafficRule) (s : Server) :
  connection s = None ->
  NoDup (map (fun r => (row_tenant_id r, row_match r)) rows) ->
  let r := load_trs rows s in
  result r = Return tt
  /\ calls r = []
  /\ (forall row, In row rows ->
        lookup (row_tenant_id row) (row_match row) (server r) = Some (rule_of row))
  /\ (forall t m, ~ In (t, m) (map (fun r => (row_tenant_id r, row_match r)) rows) ->
        lookup t m (server r) = lookup t m s).
Proof.
  revert s. induction rows as [|row rows IH]; intros s Hconn Hnd; cbn zeta.
  - cbn. split; [reflexivity|]. split; [reflexivity|].
    split; [intros row [] | reflexivity].
  - cbn [load_trs map] in *. inversion Hnd as [|? ? Hfresh Hnd']; subst.
    destruct (add_tr_result (rule_of row) s) as (Hcalls & Hres & Hconn').
    destruct (lookup_after_add (rule_of row) s) as [Hsame Hother].
    rewrite Hconn in Hcalls, Hres, Hconn'. rewrite Hres, Hcalls.
    destruct (IH (server (add_tr (rule_of row) s)) Hconn' Hnd')
      as (Hr & Hc & Hrows & Hrest).
    cbn [result calls server app]. repeat split; try assumption.
    + intros row' [<- | Hin]; [|now apply Hrows].
      rewrite (Hrest _ _ Hfresh). exact Hsame.
    + intros t m Hnotin. rewrite Hrest by (intros Hin; apply Hnotin; now right).
      apply Hother. intros Heq. apply Hnotin. left. now rewrite Heq.
Qed.

Lemma load_trs_finds_every_row_witness :
  lookup (VUuid 2%N) (VStr "tp_dst=80")
    (server (load_trs [mkTblTrafficRule (VUuid 1%N) (VStr "tp_dst=80") "web" "0x0a";
                       mkTblTrafficRule (VUuid 2%N) (VStr "tp_dst=80") "web" "0x0c"]
               (new_server 4444%N)))
  = Some (mkTrafficRule (VUuid 2%N) (VStr "tp_dst=80") "web" "0x0c").
Proof.
  destruct (load_trs_finds_every_row
              [mkTblTrafficRule (VUuid 1%N) (VStr "tp_dst=80") "web" "0x0a";
               mkTblTrafficRule (VUuid 2%N) (VStr "tp_dst=80") "web" "0x0c"]
              (new_server 4444%N) eq_refl)
    as (_ & _ & Hrows & _).
  - cbn. repeat constructor; cbn; intuition discriminate.
  - apply (Hrows (mkTblTrafficRule (VUuid 2%N) (VStr "tp_dst=80") "web" "0x0c")).
    cbn. auto.
Defined.

End IBNPFacts.
